(** * gorush: the dispatch coordinator of router/server.go

    A shallow embedding of [markFailedNotification], [handleNotification],
    the disconnect watcher of [pushHandler] and [deleteUnregisteredToken],
    together with the properties the specification states about them.

    The coordinator, the closures it hands to the worker pool and the
    watcher run concurrently.  They are modelled as a labelled transition
    system: a state holds what the goroutines share (the configuration
    object, the WaitGroup counter, the [logs] slice), an event names the
    goroutine that moves, and a schedule is a list of events. *)

From Stdlib Require Import ZArith String List Bool Lia DecimalString Permutation.
From stdpp Require Import base list.
Import ListNotations.
Local Open Scope string_scope.
Local Open Scope list_scope.
Local Open Scope Z_scope.

(** ** Data model *)

(** Modelled from the spec: the constants [core.PlatFormIos],
    [core.PlatFormAndroid] and [core.PlatFormHuawei] are declared outside the
    sources at hand.  The field is a Go [int], so a request can carry any
    other value; the [switch] of [handleNotification] has no default case. *)
Inductive PlatForm : Type :=
  | PlatFormIos
  | PlatFormAndroid
  | PlatFormHuawei
  | PlatFormOther (code : Z).

(** [notify.PushNotification], the fields [router/server.go] reads. *)
Record PushNotification : Type := mkPushNotification {
  ID : string;
  Tokens : list string;
  Platform : PlatForm;
  Message : string;
  To : string
}.

(** [notify.RequestPush]. *)
Record RequestPush : Type := mkRequestPush {
  Notifications : list PushNotification
}.

(** [config.ConfYaml], the sections and fields [router/server.go] reads in
    the functions embedded here. *)
Record SectionCore : Type := mkSectionCore {
  Sync : bool;
  MaxNotification : Z
}.

Record SectionQueue : Type := mkSectionQueue {
  Engine : string
}.

Record SectionPush : Type := mkSectionPush {
  Enabled : bool
}.

Record SectionLog : Type := mkSectionLog {
  HideToken : bool;
  Format : string
}.

Record ConfYaml : Type := mkConfYaml {
  Core : SectionCore;
  Queue : SectionQueue;
  Ios : SectionPush;
  Android : SectionPush;
  Huawei : SectionPush;
  Log : SectionLog
}.

(** The assignment [cfg.Core.Sync = b]. *)
Definition set_Sync (cfg : ConfYaml) (b : bool) : ConfYaml :=
  {| Core := {| Sync := b; MaxNotification := MaxNotification (Core cfg) |};
     Queue := Queue cfg;
     Ios := Ios cfg;
     Android := Android cfg;
     Huawei := Huawei cfg;
     Log := Log cfg |}.

(** Modelled from the spec: the push status constants of package [core]
    (success / failed) are declared outside the sources at hand. *)
Inductive PushStatus : Type :=
  | SucceededPush
  | FailedPush.

(** [logx.InputLog], as [markFailedNotification] fills it. *)
Record InputLog : Type := mkInputLog {
  InputID : string;
  InputStatus : PushStatus;
  InputToken : string;
  InputMessage : string;
  InputPlatform : PlatForm;
  InputError : option string;
  InputHideToken : bool;
  InputFormat : string
}.

(** ** Go primitives *)

(** Go's [int] on a 64-bit target: two's complement, additions wrap. *)
Definition int_wrap (x : Z) : Z := (x + 2 ^ 63) mod 2 ^ 64 - 2 ^ 63.

Definition int_add (x y : Z) : Z := int_wrap (x + y).

(** [len(s)] of a slice, as a Go [int]. *)
Definition len {A : Type} (s : list A) : Z := Z.of_nat (length s).

(** [strings.Contains(s, substr)]. *)
Fixpoint strings_Contains (s substr : string) : bool :=
  String.prefix substr s ||
  match s with
  | EmptyString => false
  | String _ s' => strings_Contains s' substr
  end.

(** [sync.WaitGroup.Add(delta)] on the counter: the new counter, or [None]
    for the panic "sync: negative WaitGroup counter".  The counter of the
    library is an [int32]; [pushHandler] bounds the number of notifications
    of a request, and with it the counter, by [cfg.Core.MaxNotification]. *)
Definition wg_Add (counter delta : Z) : option Z :=
  let v := counter + delta in
  if v <? 0 then None else Some v.

(** [wg.Done()] is [wg.Add(-1)]. *)
Definition wg_Done (counter : Z) : option Z := wg_Add counter (-1).

(** ** The platform filter (lines 266-283) *)

(** The [switch] on [notification.Platform]: [false] where the loop body
    runs [continue]. *)
Definition platform_kept (cfg : ConfYaml) (notification : PushNotification) : bool :=
  match Platform notification with
  | PlatFormIos => Enabled (Ios cfg)
  | PlatFormAndroid => Enabled (Android cfg)
  | PlatFormHuawei => Enabled (Huawei cfg)
  | PlatFormOther _ => true
  end.

(** The first loop of [handleNotification], appending to [newNotification]. *)
Definition filter_platforms (cfg : ConfYaml) (req : RequestPush) : list PushNotification :=
  fold_left
    (fun newNotification notification =>
       if platform_kept cfg notification
       then newNotification ++ [notification]
       else newNotification)
    (Notifications req) [].

(** What one notification adds to [count] (lines 335-339). *)
Definition count_step (count : Z) (notification : PushNotification) : Z :=
  let count := int_add count (len (Tokens notification)) in
  if String.eqb (To notification) "" then count else int_add count 1.

Section Dispatch.

(** ** External collaborators *)

(** Package [logx] is outside the sources at hand: the type of a log entry
    is a parameter of the development. *)
Context {LogPushEntry : Type}.

(** What [notify.SendNotification(msg, cfg)] does when a worker calls it:
    it returns a response with its [Logs] and an error (or nil), or it
    never returns.  The response is taken to be non-nil, as the closure
    reads [resp.Logs] without a check. *)
Inductive SendResult : Type :=
  | SendReturns (respLogs : list LogPushEntry) (err : option string)
  | SendNeverReturns.

(** The world around one call of [handleNotification].
    [GetLogPushEntry] is [logx.GetLogPushEntry] and [IsLocalQueue] is
    [core.IsLocalQueue(core.Queue(engine))], both outside the sources at
    hand.  The rest is indexed by the position of a notification in
    [newNotification]: the error [q.QueueTask] or [q.Queue] returns for it
    ([None] is nil) and what its send does.  [getenv] is [os.Getenv]. *)
Record World : Type := mkWorld {
  GetLogPushEntry : InputLog -> LogPushEntry;
  IsLocalQueue : string -> bool;
  submit : nat -> option string;
  send : nat -> SendResult;
  getenv : string -> string
}.

(** ** markFailedNotification (lines 227-249) *)

Definition markFailedNotification (w : World) (cfg : ConfYaml)
    (notification : PushNotification) (reason : string) : list LogPushEntry :=
  fold_left
    (fun logs token =>
       logs ++ [GetLogPushEntry w
                  {| InputID := ID notification;
                     InputStatus := FailedPush;
                     InputToken := token;
                     InputMessage := Message notification;
                     InputPlatform := Platform notification;
                     InputError := Some reason;
                     InputHideToken := HideToken (Log cfg);
                     InputFormat := Format (Log cfg) |}])
    (Tokens notification) [].

(** ** The goroutines of one request *)

(** Where the closure handed to [q.QueueTask] (lines 293-324) stands.
    [logs = append(logs, resp.Logs...)] is not atomic and nothing in the
    source serialises it: the closure reads the slice ([Appending] holds
    what it read), then assigns the extended slice.  [Returning] is the
    point where only the deferred [wg.Done()] is left. *)
Inductive Phase : Type :=
  | Queued
  | Appending (old respLogs : list LogPushEntry)
  | Returning (ret : option string)
  | Finished (ret : option string)
  | Crashed.

Record Task : Type := mkTask {
  msg : PushNotification;
  outcome : SendResult;
  phase : Phase
}.

Definition set_phase (t : Task) (p : Phase) : Task :=
  {| msg := msg t; outcome := outcome t; phase := p |}.

(** Where the coordinator [handleNotification] stands: at its entry, at
    iteration [i] of the second loop, blocked in [wg.Wait()], returned, or
    stopped by a panic. *)
Inductive PC : Type :=
  | Entry (req : RequestPush)
  | Looping (i : nat)
  | Waiting
  | Returned (count : Z) (logs : list LogPushEntry)
  | Panicked.

(** The state of one request: the shared configuration object [cfg], the
    coordinator's locals ([newNotification], [count], its program point),
    what the closures share with it ([wg], [logs]), the closures accepted by
    [q.QueueTask], the notifications accepted by [q.Queue], the
    [go deleteUnregisteredToken(token, url)] calls started so far, the
    arguments of [status.StatStorage.AddTotalCount], and whether the context
    made by [pushHandler] has been cancelled. *)
Record State : Type := mkState {
  cfg : ConfYaml;
  newNotification : list PushNotification;
  pc : PC;
  count : Z;
  wg : Z;
  logs : list LogPushEntry;
  tasks : list Task;
  queued : list PushNotification;
  spawned : list (string * string);
  statCalls : list Z;
  ctxCancelled : bool
}.

Definition with_pc (st : State) (p : PC) : State :=
  mkState (cfg st) (newNotification st) p (count st) (wg st) (logs st)
          (tasks st) (queued st) (spawned st) (statCalls st) (ctxCancelled st).

Definition with_count (st : State) (c : Z) : State :=
  mkState (cfg st) (newNotification st) (pc st) c (wg st) (logs st)
          (tasks st) (queued st) (spawned st) (statCalls st) (ctxCancelled st).

Definition with_wg (st : State) (v : Z) : State :=
  mkState (cfg st) (newNotification st) (pc st) (count st) v (logs st)
          (tasks st) (queued st) (spawned st) (statCalls st) (ctxCancelled st).

Definition with_logs (st : State) (l : list LogPushEntry) : State :=
  mkState (cfg st) (newNotification st) (pc st) (count st) (wg st) l
          (tasks st) (queued st) (spawned st) (statCalls st) (ctxCancelled st).

Definition with_tasks (st : State) (ts : list Task) : State :=
  mkState (cfg st) (newNotification st) (pc st) (count st) (wg st) (logs st)
          ts (queued st) (spawned st) (statCalls st) (ctxCancelled st).

Definition with_queued (st : State) (q : list PushNotification) : State :=
  mkState (cfg st) (newNotification st) (pc st) (count st) (wg st) (logs st)
          (tasks st) q (spawned st) (statCalls st) (ctxCancelled st).

Definition with_spawned (st : State) (s : list (string * string)) : State :=
  mkState (cfg st) (newNotification st) (pc st) (count st) (wg st) (logs st)
          (tasks st) (queued st) s (statCalls st) (ctxCancelled st).

(** The call of [handleNotification(ctx, cfg, req, q)]. *)
Definition enter (c : ConfYaml) (req : RequestPush) : State :=
  mkState c [] (Entry req) 0 0 [] [] [] [] [] false.

(** ** handleNotification (lines 251-349) *)

(** Lines 262-264: the downgrade, an assignment to the shared object. *)
Definition downgrade (w : World) (c : ConfYaml) : ConfYaml :=
  if Sync (Core c) && negb (IsLocalQueue w (Engine (Queue c)))
  then set_Sync c false
  else c.

(** Lines 258-285: locals, downgrade, platform filter. *)
Definition coord_entry (w : World) (st : State) (req : RequestPush) : State :=
  let c := downgrade w (cfg st) in
  mkState c (filter_platforms c req) (Looping 0) 0 0 []
          (tasks st) (queued st) (spawned st) (statCalls st) (ctxCancelled st).

(** Lines 346-348: [AddTotalCount(int64(count))] and [return count, logs]. *)
Definition coord_return (st : State) : State :=
  mkState (cfg st) (newNotification st) (Returned (count st) (logs st))
          (count st) (wg st) (logs st) (tasks st) (queued st) (spawned st)
          (statCalls st ++ [count st]) (ctxCancelled st).

(** Lines 287-289: [if cfg.Core.Sync { wg.Add(1) }]; [None] is the panic
    of [wg.Add]. *)
Definition register_unit (st : State) : option State :=
  if Sync (Core (cfg st)) then
    match wg_Add (wg st) 1 with
    | Some v => Some (with_wg st v)
    | None => None
    end
  else Some st.

(** Lines 292-327: the closure is handed to [q.QueueTask]; an error is
    logged and nothing else is done. *)
Definition submit_closure (w : World) (st : State) (i : nat)
    (notification : PushNotification) : State :=
  match submit w i with
  | None => with_tasks st (tasks st ++ [mkTask notification (send w i) Queued])
  | Some err => st
  end.

(** Lines 328-333: the notification is handed to [q.Queue]; on an error the
    failure logs are appended and [wg.Done()] is called. *)
Definition submit_notification (w : World) (st : State) (i : nat)
    (notification : PushNotification) : State :=
  match submit w i with
  | None => with_queued st (queued st ++ [notification])
  | Some err =>
      let resp := markFailedNotification w (cfg st) notification "max capacity reached" in
      let st := with_logs st (logs st ++ resp) in
      match wg_Done (wg st) with
      | Some v => with_wg st v
      | None => with_pc st Panicked
      end
  end.

(** Lines 335-339, and on to the next iteration. *)
Definition add_count (st : State) (i : nat) (notification : PushNotification) : State :=
  with_pc (with_count st (count_step (count st) notification)) (Looping (S i)).

(** Lines 286-340: one iteration of the second loop, for the notification
    at position [i]. *)
Definition coord_iteration (w : World) (st : State) (i : nat)
    (notification : PushNotification) : State :=
  match register_unit st with
  | None => with_pc st Panicked
  | Some st =>
      let st :=
        if IsLocalQueue w (Engine (Queue (cfg st))) && Sync (Core (cfg st))
        then submit_closure w st i notification
        else submit_notification w st i notification in
      match pc st with
      | Panicked => st
      | _ => add_count st i notification
      end
  end.

(** One move of the coordinator. *)
Definition coord_step (w : World) (st : State) : State :=
  match pc st with
  | Entry req => coord_entry w st req
  | Looping i =>
      match newNotification st !! i with
      | Some notification => coord_iteration w st i notification
      | None =>
          (* lines 342-344 *)
          if Sync (Core (cfg st)) then with_pc st Waiting else coord_return st
      end
  | Waiting =>
      (* [wg.Wait()] returns once the counter is zero *)
      if wg st =? 0 then coord_return st else st
  | Returned _ _ => st
  | Panicked => st
  end.

(** Lines 308-313: the base URL of the cleaner service. *)
Definition cleanerApiUrl (w : World) : string :=
  let cleanerApiUrl := getenv w "CLEANER_API_URL" in
  if String.eqb cleanerApiUrl "" then "https://cleaner.tolki.app" else cleanerApiUrl.

(** Lines 307-315: one [go deleteUnregisteredToken(token, cleanerApiUrl)]
    per token. *)
Definition spawn_reclaims (w : World) (m : PushNotification)
    (spawned : list (string * string)) : list (string * string) :=
  fold_left (fun spawned token => spawned ++ [(token, cleanerApiUrl w)])
            (Tokens m) spawned.

Definition set_task (st : State) (k : nat) (t : Task) : State :=
  with_tasks st (<[k := t]> (tasks st)).

(** One move of the closure submitted for the [k]-th accepted task. *)
Definition task_step (w : World) (st : State) (k : nat) (t : Task) : State :=
  match phase t with
  | Queued =>
      match outcome t with
      | SendNeverReturns => st
      | SendReturns respLogs (Some err) =>
          if strings_Contains err "Unregistered" then
            let st := with_spawned st (spawn_reclaims w (msg t) (spawned st)) in
            set_task st k (set_phase t (Appending (logs st) respLogs))
          else
            set_task st k (set_phase t (Returning (Some err)))
      | SendReturns respLogs None =>
          set_task st k (set_phase t (Appending (logs st) respLogs))
      end
  | Appending old respLogs =>
      set_task (with_logs st (old ++ respLogs)) k (set_phase t (Returning None))
  | Returning ret =>
      match wg_Done (wg st) with
      | Some v => set_task (with_wg st v) k (set_phase t (Finished ret))
      | None => set_task st k (set_phase t Crashed)
      end
  | Finished _ => st
  | Crashed => st
  end.

Definition work_step (w : World) (st : State) (k : nat) : State :=
  match tasks st !! k with
  | Some t => task_step w st k t
  | None => st
  end.

(** The watcher goroutine of [pushHandler] (lines 87-99), once the request
    context is done: it cancels the context it created when sync is set.
    [handleNotification] receives that context as [_]. *)
Definition watcher_step (st : State) : State :=
  if Sync (Core (cfg st)) then
    mkState (cfg st) (newNotification st) (pc st) (count st) (wg st) (logs st)
            (tasks st) (queued st) (spawned st) (statCalls st) true
  else st.

(** Which goroutine moves. *)
Inductive Event : Type :=
  | Coord
  | Work (k : nat)
  | Disconnect.

Definition step (w : World) (st : State) (e : Event) : State :=
  match e with
  | Coord => coord_step w st
  | Work k => work_step w st k
  | Disconnect => watcher_step st
  end.

(** A schedule, run from a state.  An event whose goroutine cannot move
    (blocked in [wg.Wait()], waiting for a send, finished) leaves the state
    as it is. *)
Definition run (w : World) (sched : list Event) (st : State) : State :=
  fold_left (step w) sched st.

(** [handleNotification] under a schedule. *)
Definition handleNotification (w : World) (c : ConfYaml) (req : RequestPush)
    (sched : list Event) : State :=
  run w sched (enter c req).

End Dispatch.

(** ** deleteUnregisteredToken (lines 351-373) *)

(** What [client.Do(req)] returns: an error, or a response with its status
    code. *)
Inductive DoResult : Type :=
  | DoError (err : string)
  | DoResponse (StatusCode : Z).

(** The network as the reclaimer sees it: whether
    [http.NewRequest(method, url, nil)] fails, and the result of the
    [n]-th call of [client.Do]. *)
Record Network : Type := mkNetwork {
  NewRequest_fails : string -> string -> bool;
  client_Do : nat -> DoResult
}.

(** What the reclaimer does to the outside: requests, sleeps (in seconds)
    and diagnostic log lines.  The Go function has no result. *)
Inductive Effect : Type :=
  | Request (method url : string)
  | Sleep (seconds : Z)
  | LogErrorf (line : string).

Definition StatusOK : Z := 200.

(** The retry loop, with [attempts] the loop counter and [remaining] the
    iterations left before [attempts < 3] fails. *)
Fixpoint retry_loop (net : Network) (url : string) (remaining attempts : nat)
    (trace : list Effect) : list Effect :=
  match remaining with
  | O => trace
  | S remaining =>
      let trace := trace ++ [Request "DELETE" url] in
      match client_Do net attempts with
      | DoError err =>
          retry_loop net url remaining (S attempts)
                     (trace ++ [LogErrorf "Error sending DELETE request"; Sleep 2])
      | DoResponse code =>
          if code =? StatusOK then trace
          else retry_loop net url remaining (S attempts) (trace ++ [Sleep 2])
      end
  end.

Definition deleteUnregisteredToken (net : Network) (token cleanerServiceURL : string)
    : list Effect :=
  let url := (cleanerServiceURL ++ "/" ++ token)%string in
  if NewRequest_fails net "DELETE" url
  then [LogErrorf "Error creating request"]
  else retry_loop net url 3 0 [].



(** Whether the [k]-th call of [client.Do] answers with [http.StatusOK]. *)
Definition attempt_ok (net : Network) (k : nat) : bool :=
  match client_Do net k with
  | DoError _ => false
  | DoResponse code => code =? StatusOK
  end.

(** ** The quantities the specification speaks of *)

(** A notification targets a disabled platform. *)
Definition platform_disabled (c : ConfYaml) (notification : PushNotification) : bool :=
  match Platform notification with
  | PlatFormIos => negb (Enabled (Ios c))
  | PlatFormAndroid => negb (Enabled (Android c))
  | PlatFormHuawei => negb (Enabled (Huawei c))
  | PlatFormOther _ => false
  end.

(** The delivery volume of one notification: its tokens, plus one when the
    topic is set. *)
Definition volume (notification : PushNotification) : Z :=
  len (Tokens notification) + (if String.eqb (To notification) "" then 0 else 1).

(** The sum of the volumes over the notifications that are not on a
    disabled platform. *)
Definition expected_count (c : ConfYaml) (req : RequestPush) : Z :=
  fold_right Z.add 0
    (map volume (List.filter (fun n => negb (platform_disabled c n)) (Notifications req))).

(** [count] after the second loop has gone through [l]. *)
Definition counts (l : list PushNotification) : Z := fold_left count_step l 0.

(** The units registered with the barrier and not released by a closure
    that has yet to run its deferred [wg.Done()]. *)
Definition live {LogPushEntry : Type} (t : @Task LogPushEntry) : Z :=
  match phase t with
  | Finished _ => 0
  | Crashed => 0
  | _ => 1
  end.

Definition lives {LogPushEntry : Type} (ts : list (@Task LogPushEntry)) : Z :=
  fold_right Z.add 0 (map live ts).

(** The submissions rejected among the first [i]. *)
Fixpoint rejected {LogPushEntry : Type} (w : @World LogPushEntry) (i : nat) : Z :=
  match i with
  | O => 0
  | S i => rejected w i + match submit w i with Some _ => 1 | None => 0 end
  end.

(** The entries a closure appends to [logs], by what its send did: those of
    the response, unless the send returned an error without "Unregistered"
    in its text. *)
Definition appended {LogPushEntry : Type} (r : @SendResult LogPushEntry)
    : list LogPushEntry :=
  match r with
  | SendReturns respLogs None => respLogs
  | SendReturns respLogs (Some err) =>
      if strings_Contains err "Unregistered" then respLogs else []
  | SendNeverReturns => []
  end.

(** The position the coordinator has reached in [newNotification]. *)
Definition position {LogPushEntry : Type} (st : @State LogPushEntry) : nat :=
  match pc st with
  | Entry _ => 0
  | Looping i => i
  | _ => length (newNotification st)
  end.

(** ** Invariants *)

(** What holds of the coordinator's locals and of the configuration object
    in every state of a call [handleNotification(ctx, c, req, q)]. *)
Definition Common {LogPushEntry : Type} (w : @World LogPushEntry) (c : ConfYaml)
    (req : RequestPush) (st : @State LogPushEntry) : Prop :=
  match pc st with
  | Entry r => r = req /\ cfg st = c
  | Looping i =>
      cfg st = downgrade w c /\
      newNotification st = filter_platforms (downgrade w c) req /\
      (i <= length (newNotification st))%nat /\
      count st = counts (take i (newNotification st))
  | Waiting =>
      cfg st = downgrade w c /\
      newNotification st = filter_platforms (downgrade w c) req /\
      Sync (Core (cfg st)) = true /\
      count st = counts (newNotification st)
  | Returned cnt l =>
      cfg st = downgrade w c /\
      newNotification st = filter_platforms (downgrade w c) req /\
      cnt = counts (newNotification st)
  | Panicked =>
      cfg st = downgrade w c /\
      newNotification st = filter_platforms (downgrade w c) req
  end.

(** A closure whose send never returns stays where it was queued. *)
Definition hung_stay {LogPushEntry : Type} (ts : list (@Task LogPushEntry)) : Prop :=
  Forall (fun t => outcome t = SendNeverReturns -> phase t = Queued) ts.

(** Every accepted submission among the first [i] whose send never returns
    has its closure among the tasks. *)
Definition hung_present {LogPushEntry : Type} (w : @World LogPushEntry) (i : nat)
    (ts : list (@Task LogPushEntry)) : Prop :=
  forall k, (k < i)%nat -> submit w k = None -> send w k = SendNeverReturns ->
    exists j t, ts !! j = Some t /\ outcome t = SendNeverReturns.

(** The invariant of a call in synchronous mode: the counter of the
    WaitGroup is the number of closures that have not run their deferred
    [wg.Done()], plus the number of rejected submissions. *)
Definition SyncInv {LogPushEntry : Type} (w : @World LogPushEntry)
    (st : @State LogPushEntry) : Prop :=
  Sync (Core (cfg st)) = true /\
  IsLocalQueue w (Engine (Queue (cfg st))) = true /\
  match pc st with
  | Entry _ => tasks st = []
  | Panicked => False
  | _ =>
      (position st <= length (newNotification st))%nat /\
      wg st = lives (tasks st) + rejected w (position st) /\
      hung_stay (tasks st) /\
      hung_present w (position st) (tasks st) /\
      match pc st with
      | Returned _ _ => wg st = 0
      | _ => True
      end
  end.

(** The invariant of a call in asynchronous mode: no closure exists, the
    counter of the WaitGroup stays at zero, and the coordinator goes on
    only as long as no submission has been rejected. *)
Definition AsyncInv {LogPushEntry : Type} (w : @World LogPushEntry)
    (st : @State LogPushEntry) : Prop :=
  match pc st with
  | Entry _ => Sync (Core (downgrade w (cfg st))) = false /\ tasks st = []
  | Looping i =>
      Sync (Core (cfg st)) = false /\ tasks st = [] /\ wg st = 0 /\
      rejected w i = 0 /\ (i <= length (newNotification st))%nat
  | Waiting => False
  | Returned _ _ => rejected w (length (newNotification st)) = 0
  | Panicked => True
  end.

(** The requests the reclaimer makes: none when the request cannot be
    built, else up to three, stopping at the first [http.StatusOK]. *)
Definition attempts_made (net : Network) (url : string) : nat :=
  if NewRequest_fails net "DELETE" url then 0
  else if attempt_ok net 0 then 1
  else if attempt_ok net 1 then 2
  else 3.

(** The schedule in which the closures at positions [k0], ..., [k0 + m - 1]
    run one after the other, each to its end. *)
Definition finish_schedule (k0 m : nat) : list Event :=
  flat_map (fun k => [Work k; Work k; Work k]) (seq k0 m).

(** The schedule in which the coordinator goes through its loop for [n]
    notifications, then the closures run one after the other, then the
    coordinator moves again. *)
Definition sequential_schedule (n : nat) : list Event :=
  repeat Coord (n + 2) ++ finish_schedule 0 n ++ [Coord].

(** ** Concrete configurations, requests and worlds

    In the examples a log entry is the [InputLog] it was made from. *)

Definition example_cfg (sync : bool) (engine : string) : ConfYaml :=
  {| Core := {| Sync := sync; MaxNotification := 100 |};
     Queue := {| Engine := engine |};
     Ios := {| Enabled := true |};
     Android := {| Enabled := false |};
     Huawei := {| Enabled := true |};
     Log := {| HideToken := false; Format := "string" |} |}.

(** Two iOS notifications with tokens [a; b] and [c], and an Android one,
    Android being disabled in [example_cfg]. *)
Definition example_req : RequestPush :=
  {| Notifications :=
       [ mkPushNotification "n1" ["a"; "b"] PlatFormIos "hello" "";
         mkPushNotification "n2" ["x"] PlatFormAndroid "dropped" "";
         mkPushNotification "n3" ["c"] PlatFormIos "world" "" ] |}.

(** One iOS notification with one token and a topic. *)
Definition topic_req : RequestPush :=
  {| Notifications := [ mkPushNotification "n1" ["a"] PlatFormIos "hello" "news" ] |}.

Definition success_entry (token : string) : InputLog :=
  mkInputLog "n" SucceededPush token "hello" PlatFormIos None false "string".

(** A world in which "local" is the local engine, every submission is
    accepted and the send for position [i] does [sends i]. *)
Definition example_world (submits : nat -> option string)
    (sends : nat -> @SendResult InputLog) : @World InputLog :=
  {| GetLogPushEntry := fun input => input;
     IsLocalQueue := String.eqb "local";
     submit := submits;
     send := sends;
     getenv := fun _ => "" |}.

(** A network on which [client.Do] fails once, then gets a 503, then a
    200. *)
Definition flaky_network : Network :=
  {| NewRequest_fails := fun _ _ => false;
     client_Do := fun k =>
       match k with
       | O => DoError "connection refused"
       | S O => DoResponse 503
       | _ => DoResponse 200
       end |}.


Definition accept_all : nat -> option string := fun _ => None.

Definition reject_all : nat -> option string := fun _ => Some "max capacity reached".

Definition never_return : nat -> @SendResult InputLog := fun _ => SendNeverReturns.

(** The send for position 0 fails with an error of the given text, after
    producing one entry; the other sends succeed. *)
Definition fail_first (err : string) : nat -> @SendResult InputLog :=
  fun i =>
    if Nat.eqb i 0
    then SendReturns [mkInputLog "n" FailedPush "a" "hello" PlatFormIos (Some err)
                                  false "string"] (Some err)
    else SendReturns [success_entry "c"] None.

(** Every send succeeds, with one entry per token of [example_req]. *)
Definition succeed_all : nat -> @SendResult InputLog :=
  fun i =>
    if Nat.eqb i 0
    then SendReturns [success_entry "a"; success_entry "b"] None
    else SendReturns [success_entry "c"] None.

(** ** Further quantities and invariants *)

(** A schedule without the moves of the watcher. *)
Definition strip_disconnect (sched : list Event) : list Event :=
  List.filter (fun e => match e with Disconnect => false | _ => true end) sched.

(** A state with the cancellation flag of the context set to [b]. *)
Definition set_ctx {LogPushEntry : Type} (st : @State LogPushEntry) (b : bool)
    : @State LogPushEntry :=
  mkState (cfg st) (newNotification st) (pc st) (count st) (wg st) (logs st)
          (tasks st) (queued st) (spawned st) (statCalls st) b.

(** The calls of [status.StatStorage.AddTotalCount] made so far: none before
    the return, one with the returned count after it. *)
Definition StatInv {LogPushEntry : Type} (st : @State LogPushEntry) : Prop :=
  match pc st with
  | Returned cnt _ => statCalls st = [cnt]
  | _ => statCalls st = []
  end.

(** The counter of the WaitGroup lies between zero and the number of
    notifications the second loop has gone through. *)
Definition WgBound {LogPushEntry : Type} (st : @State LogPushEntry) : Prop :=
  0 <= wg st <= Z.of_nat (position st) /\
  (position st <= length (newNotification st))%nat.

(** What a call in synchronous mode keeps besides [SyncInv]: no closure
    has crashed in its deferred [wg.Done()], nothing has been handed to
    [q.Queue], and every notification gone through has either a closure or
    a rejected submission. *)
Definition SyncAccount {LogPushEntry : Type} (w : @World LogPushEntry)
    (st : @State LogPushEntry) : Prop :=
  Forall (fun t => phase t <> Crashed) (tasks st) /\
  queued st = [] /\
  Z.of_nat (length (tasks st)) + rejected w (position st) = Z.of_nat (position st).

(** What a call in asynchronous mode keeps besides [AsyncInv]: no closure
    and no reclaimer exist, [logs] is empty as long as the call goes on,
    and the notifications gone through have been handed to [q.Queue], in
    order. *)
Definition AsyncQuiet {LogPushEntry : Type} (st : @State LogPushEntry) : Prop :=
  tasks st = [] /\ spawned st = [] /\
  match pc st with
  | Entry _ => queued st = []
  | Looping i => logs st = [] /\ queued st = take i (newNotification st)
  | Waiting => True
  | Returned _ l => l = [] /\ queued st = newNotification st
  | Panicked => True
  end.

(** The send returned an error with "Unregistered" in its text. *)
Definition unregistered {LogPushEntry : Type} (r : @SendResult LogPushEntry) : bool :=
  match r with
  | SendReturns _ (Some err) => strings_Contains err "Unregistered"
  | _ => false
  end.

(** The reclaimers a closure has started: one per token once it is past its
    send, if the send returned such an error. *)
Definition reclaimed {LogPushEntry : Type} (t : @Task LogPushEntry) : nat :=
  match phase t with
  | Queued => 0
  | _ => if unregistered (outcome t) then length (Tokens (msg t)) else 0
  end.

Definition reclaimed_total {LogPushEntry : Type} (ts : list (@Task LogPushEntry)) : nat :=
  fold_right Nat.add 0%nat (map reclaimed ts).

(** Every reclaimer started is accounted for by a closure. *)
Definition SpawnInv {LogPushEntry : Type} (w : @World LogPushEntry)
    (st : @State LogPushEntry) : Prop :=
  length (spawned st) = reclaimed_total (tasks st) /\
  forall token url, In (token, url) (spawned st) ->
    url = cleanerApiUrl w /\
    exists j t, tasks st !! j = Some t /\ In token (Tokens (msg t)) /\
                unregistered (outcome t) = true.

(** ** pushHandler (lines 61-109) *)

(** What [c.ShouldBindWith(&form, binding.JSON)] yields. *)
Inductive BindResult : Type :=
  | BindFails (err : string)
  | BindOK (form : RequestPush).

(** What the handler writes: [abortWithError(c, code, message)] or
    [c.JSON(code, {success, counts, logs})]. *)
Inductive Response {LogPushEntry : Type} : Type :=
  | AbortWithStatusJSON (code : Z) (message : string)
  | JSON (code : Z) (counts : Z) (logs : list LogPushEntry).

Definition StatusBadRequest : Z := 400.

(** The verb [%d] of [fmt.Sprintf]. *)
Definition Sprintf_d (z : Z) : string := NilZero.string_of_int (Z.to_int z).

(** [pushHandler(cfg, q)] on one request, under a schedule for the
    goroutines of [handleNotification]: the response written, if the call
    gets that far, and the configuration object afterwards. *)
Definition pushHandler {LogPushEntry : Type} (w : @World LogPushEntry) (c : ConfYaml)
    (bind : BindResult) (sched : list Event)
    : option (@Response LogPushEntry) * ConfYaml :=
  match bind with
  | BindFails err =>
      (Some (AbortWithStatusJSON StatusBadRequest "Missing notifications field."), c)
  | BindOK form =>
      if len (Notifications form) =? 0 then
        (Some (AbortWithStatusJSON StatusBadRequest "Notifications field is empty."), c)
      else if len (Notifications form) >? MaxNotification (Core c) then
        (Some (AbortWithStatusJSON StatusBadRequest
                 ("Number of notifications(" ++ Sprintf_d (len (Notifications form))
                  ++ ") over limit(" ++ Sprintf_d (MaxNotification (Core c)) ++ ")")%string),
         c)
      else
        let st := handleNotification w c form sched in
        (match pc st with
         | Returned counts logs => Some (JSON StatusOK counts logs)
         | _ => None
         end,
         cfg st)
  end.

(** The time slept in a trace of the reclaimer, in seconds. *)
Fixpoint total_sleep (trace : list Effect) : Z :=
  match trace with
  | [] => 0
  | Sleep seconds :: trace => seconds + total_sleep trace
  | _ :: trace => total_sleep trace
  end.

(** The requests of the reclaimer that were not answered with
    [http.StatusOK]. *)
Definition failed_attempts (net : Network) (url : string) : nat :=
  if NewRequest_fails net "DELETE" url then 0
  else if attempt_ok net 0 then 0
  else if attempt_ok net 1 then 1
  else if attempt_ok net 2 then 2
  else 3.

(** The schedule in which the closures at the positions [ks] run one after
    the other, each to its end, in that order, between the coordinator's
    loop over [n] notifications and its last move. *)
Definition finish_order (ks : list nat) : list Event :=
  flat_map (fun k => [Work k; Work k; Work k]) ks.

Definition ordered_schedule (n : nat) (ks : list nat) : list Event :=
  repeat Coord (n + 2) ++ finish_order ks ++ [Coord].

(** Two notifications for Android, which [example_cfg] disables. *)
Definition disabled_req : RequestPush :=
  {| Notifications :=
       [ mkPushNotification "n1" ["x"] PlatFormAndroid "hello" "";
         mkPushNotification "n2" ["y"; "z"] PlatFormAndroid "hello" "news" ] |}.

(** Every closure belongs to a kept notification that the loop has gone
    through and whose submission the queue accepted, and carries that
    notification and its send. *)
Definition TaskOrigin {LogPushEntry : Type} (w : @World LogPushEntry)
    (st : @State LogPushEntry) : Prop :=
  forall j t, tasks st !! j = Some t ->
    exists k n, (k < position st)%nat /\ newNotification st !! k = Some n /\
                submit w k = None /\ msg t = n /\ outcome t = send w k.

(** * Properties *)

Section Properties.

Context {LogPushEntry : Type}.

Local Abbreviation World := (@World LogPushEntry).
Local Abbreviation State := (@State LogPushEntry).
Local Abbreviation Task := (@Task LogPushEntry).
Local Abbreviation PC := (@PC LogPushEntry).

(** ** Loops as list functions *)

(** A loop that appends one element per iteration builds a [map]. *)
Lemma fold_left_snoc_map {A B : Type} (f : A -> B) (l : list A) (acc : list B) :
  fold_left (fun acc x => acc ++ [f x]) l acc = acc ++ map f l.
Proof.
  revert acc; induction l as [|x l IH]; intros acc; simpl.
  - now rewrite app_nil_r.
  - rewrite IH, <- app_assoc. reflexivity.
Qed.

Lemma filter_platforms_filter (c : ConfYaml) (req : RequestPush) :
  filter_platforms c req = List.filter (platform_kept c) (Notifications req).
Proof.
  unfold filter_platforms.
  enough (H : forall l acc,
             fold_left (fun acc n => if platform_kept c n then acc ++ [n] else acc) l acc
             = acc ++ List.filter (platform_kept c) l).
  { apply H. }
  induction l as [|n l IH]; intros acc; simpl.
  - now rewrite app_nil_r.
  - rewrite IH. destruct (platform_kept c n); [|reflexivity].
    now rewrite <- app_assoc.
Qed.

Lemma platform_kept_disabled (c : ConfYaml) (n : PushNotification) :
  platform_kept c n = negb (platform_disabled c n).
Proof.
  unfold platform_kept, platform_disabled.
  destruct (Platform n); try reflexivity; now rewrite negb_involutive.
Qed.

Lemma markFailedNotification_map (w : World) (c : ConfYaml) (n : PushNotification)
    (reason : string) :
  markFailedNotification w c n reason
  = map (fun token =>
           GetLogPushEntry w
             (mkInputLog (ID n) FailedPush token (Message n) (Platform n)
                         (Some reason) (HideToken (Log c)) (Format (Log c))))
        (Tokens n).
Proof.
  unfold markFailedNotification.
  apply (fold_left_snoc_map
           (fun token => GetLogPushEntry w
              (mkInputLog (ID n) FailedPush token (Message n) (Platform n)
                          (Some reason) (HideToken (Log c)) (Format (Log c))))).
Qed.

Lemma spawn_reclaims_map (w : World) (m : PushNotification) (sp : list (string * string)) :
  spawn_reclaims w m sp = sp ++ map (fun token => (token, cleanerApiUrl w)) (Tokens m).
Proof. apply (fold_left_snoc_map (fun token => (token, cleanerApiUrl w))). Qed.

(** ** Arithmetic of [count] *)


Lemma int_wrap_add_l (a b : Z) : int_wrap (int_wrap a + b) = int_wrap (a + b).
Proof.
  unfold int_wrap. f_equal.
  replace ((a + 2 ^ 63) mod 2 ^ 64 - 2 ^ 63 + b + 2 ^ 63)
    with ((a + 2 ^ 63) mod 2 ^ 64 + b) by lia.
  rewrite Zplus_mod_idemp_l. f_equal. lia.
Qed.

Lemma count_step_wrap (a : Z) (n : PushNotification) :
  count_step (int_wrap a) n = int_wrap (a + volume n).
Proof.
  unfold count_step, volume, int_add.
  destruct (String.eqb (To n) "").
  - rewrite int_wrap_add_l. f_equal. lia.
  - rewrite int_wrap_add_l, <- Z.add_assoc, int_wrap_add_l. f_equal.
Qed.

Lemma fold_count_step_wrap (l : list PushNotification) (a : Z) :
  fold_left count_step l (int_wrap a) = int_wrap (a + fold_right Z.add 0 (map volume l)).
Proof.
  revert a; induction l as [|n l IH]; intros a; simpl.
  - f_equal. lia.
  - rewrite count_step_wrap, IH. f_equal. lia.
Qed.

Lemma counts_sum (l : list PushNotification) :
  counts l = int_wrap (fold_right Z.add 0 (map volume l)).
Proof.
  unfold counts. change 0 with (int_wrap 0) at 1.
  rewrite fold_count_step_wrap. reflexivity.
Qed.

Lemma counts_snoc (l : list PushNotification) (n : PushNotification) :
  counts (l ++ [n]) = count_step (counts l) n.
Proof. unfold counts. now rewrite fold_left_app. Qed.

Lemma filter_platforms_downgrade (w : World) (c : ConfYaml) (req : RequestPush) :
  filter_platforms (downgrade w c) req = filter_platforms c req.
Proof.
  unfold downgrade.
  destruct (Sync (Core c) && negb (IsLocalQueue w (Engine (Queue c)))); reflexivity.
Qed.

Lemma counts_expected (w : World) (c : ConfYaml) (req : RequestPush) :
  counts (filter_platforms (downgrade w c) req) = int_wrap (expected_count c req).
Proof.
  rewrite filter_platforms_downgrade, counts_sum, filter_platforms_filter.
  unfold expected_count. do 3 f_equal.
  apply List.filter_ext. intros n. apply platform_kept_disabled.
Qed.

(** ** What the closures and the watcher leave alone *)

Ltac unfold_work :=
  unfold work_step, task_step, set_task, set_phase, with_tasks, with_logs, with_wg,
    with_spawned, with_pc, with_count, with_queued in *.

Lemma work_step_frame (w : World) (st : State) (k : nat) :
  pc (work_step w st k) = pc st /\
  cfg (work_step w st k) = cfg st /\
  newNotification (work_step w st k) = newNotification st /\
  count (work_step w st k) = count st /\
  queued (work_step w st k) = queued st /\
  statCalls (work_step w st k) = statCalls st /\
  ctxCancelled (work_step w st k) = ctxCancelled st.
Proof. unfold_work. repeat case_match; simpl; auto 10. Qed.

Lemma watcher_step_frame (st : State) :
  pc (watcher_step st) = pc st /\
  cfg (watcher_step st) = cfg st /\
  newNotification (watcher_step st) = newNotification st /\
  count (watcher_step st) = count st /\
  wg (watcher_step st) = wg st /\
  logs (watcher_step st) = logs st /\
  tasks (watcher_step st) = tasks st /\
  queued (watcher_step st) = queued st /\
  spawned (watcher_step st) = spawned st /\
  statCalls (watcher_step st) = statCalls st.
Proof. unfold watcher_step. case_match; simpl; auto 15. Qed.

(** ** The coordinator's own invariant *)

Lemma Common_enter (w : World) (c : ConfYaml) (req : RequestPush) :
  Common w c req (enter c req).
Proof. split; reflexivity. Qed.

Lemma register_unit_frame (st st1 : State) :
  register_unit st = Some st1 ->
  cfg st1 = cfg st /\ newNotification st1 = newNotification st /\
  pc st1 = pc st /\ count st1 = count st /\ logs st1 = logs st /\
  tasks st1 = tasks st /\ queued st1 = queued st /\ spawned st1 = spawned st /\
  statCalls st1 = statCalls st /\ ctxCancelled st1 = ctxCancelled st.
Proof.
  unfold register_unit. destruct (Sync (Core (cfg st))).
  - destruct (wg_Add (wg st) 1); [|discriminate].
    intros [= <-]. simpl. auto 15.
  - intros [= <-]. auto 15.
Qed.

Lemma submit_closure_frame (w : World) (st : State) (i : nat) (n : PushNotification) :
  let st1 := submit_closure w st i n in
  cfg st1 = cfg st /\ newNotification st1 = newNotification st /\
  pc st1 = pc st /\ count st1 = count st /\ logs st1 = logs st /\ wg st1 = wg st /\
  queued st1 = queued st /\ spawned st1 = spawned st /\
  statCalls st1 = statCalls st /\ ctxCancelled st1 = ctxCancelled st.
Proof. unfold submit_closure. destruct (submit w i); simpl; auto 15. Qed.

Lemma submit_notification_frame (w : World) (st : State) (i : nat) (n : PushNotification) :
  let st1 := submit_notification w st i n in
  cfg st1 = cfg st /\ newNotification st1 = newNotification st /\
  (pc st1 = pc st \/ pc st1 = Panicked) /\ count st1 = count st /\
  tasks st1 = tasks st /\ spawned st1 = spawned st /\
  statCalls st1 = statCalls st /\ ctxCancelled st1 = ctxCancelled st.
Proof.
  unfold submit_notification. destruct (submit w i); simpl; auto 15.
  destruct (wg_Done _); simpl; auto 15.
Qed.

Lemma coord_iteration_frame (w : World) (st : State) (i : nat) (n : PushNotification) :
  cfg (coord_iteration w st i n) = cfg st /\
  newNotification (coord_iteration w st i n) = newNotification st /\
  spawned (coord_iteration w st i n) = spawned st /\
  statCalls (coord_iteration w st i n) = statCalls st /\
  ctxCancelled (coord_iteration w st i n) = ctxCancelled st.
Proof.
  unfold coord_iteration.
  destruct (register_unit st) as [st1|] eqn:E1; [|simpl; auto 10].
  apply register_unit_frame in E1.
  destruct E1 as (R1 & R2 & R3 & R4 & R5 & R6 & R7 & R8 & R9 & R10).
  destruct (IsLocalQueue w (Engine (Queue (cfg st1))) && Sync (Core (cfg st1))).
  - destruct (submit_closure_frame w st1 i n) as (S1 & S2 & S3 & S4 & S5 & S6 & S7 & S8 & S9 & S10).
    destruct (pc (submit_closure w st1 i n)); simpl; repeat split; congruence.
  - destruct (submit_notification_frame w st1 i n) as (S1 & S2 & S3 & S4 & S5 & S6 & S7 & S8).
    destruct (pc (submit_notification w st1 i n)); simpl; repeat split; congruence.
Qed.

Lemma coord_iteration_pc (w : World) (st : State) (i : nat) (n : PushNotification) :
  (pc (coord_iteration w st i n) = Looping (S i) /\
   count (coord_iteration w st i n) = count_step (count st) n) \/
  pc (coord_iteration w st i n) = Panicked.
Proof.
  unfold coord_iteration.
  destruct (register_unit st) as [st1|] eqn:E1; [|simpl; auto 10].
  apply register_unit_frame in E1.
  destruct E1 as (R1 & R2 & R3 & R4 & R5 & R6 & R7 & R8 & R9 & R10).
  destruct (IsLocalQueue w (Engine (Queue (cfg st1))) && Sync (Core (cfg st1))).
  - destruct (submit_closure_frame w st1 i n) as (S1 & S2 & S3 & S4 & S5 & S6 & S7 & S8 & S9 & S10).
    destruct (pc (submit_closure w st1 i n)) eqn:Epc; [left|left|left|left|right; exact Epc];
      unfold add_count; cbn [pc count with_pc with_count]; (split; [reflexivity|congruence]).
  - destruct (submit_notification_frame w st1 i n) as (S1 & S2 & S3 & S4 & S5 & S6 & S7 & S8).
    destruct (pc (submit_notification w st1 i n)) eqn:Epc; [left|left|left|left|right; exact Epc];
      unfold add_count; cbn [pc count with_pc with_count]; (split; [reflexivity|congruence]).
Qed.

Lemma Common_step (w : World) (c : ConfYaml) (req : RequestPush) (st : State) (e : Event) :
  Common w c req st -> Common w c req (step w st e).
Proof.
  intros H. destruct e as [|k|]; simpl.
  - (* the coordinator *)
    unfold Common, coord_step in *.
    destruct (pc st) as [r|i| |cnt l|] eqn:Epc.
    + destruct H as [-> Hc]. simpl. rewrite Hc. repeat split. lia.
    + destruct H as (Hc & Hn & Hi & Hcount).
      destruct (newNotification st !! i) as [n|] eqn:En.
      * destruct (coord_iteration_frame w st i n) as (F1 & F2 & _).
        destruct (coord_iteration_pc w st i n) as [[P1 P2]|P1]; rewrite P1.
        -- rewrite F1, F2. repeat split; auto.
           ++ apply lookup_lt_Some in En. lia.
           ++ rewrite P2, Hcount, (take_S_r _ _ _ En), counts_snoc. reflexivity.
        -- rewrite F1, F2. auto.
      * apply lookup_ge_None in En.
        destruct (Sync (Core (cfg st))) eqn:Es; simpl.
        -- rewrite Es. repeat split; auto.
           rewrite Hcount, take_ge by lia. reflexivity.
        -- repeat split; auto. rewrite Hcount, take_ge by lia. reflexivity.
    + destruct H as (Hc & Hn & Hs & Hcount).
      destruct (wg st =? 0); simpl; rewrite ?Epc; auto.
    + rewrite Epc. exact H.
    + rewrite Epc. exact H.
  - destruct (work_step_frame w st k) as (F1 & F2 & F3 & F4 & _).
    unfold Common in *. rewrite F1, F2, F3, F4. exact H.
  - destruct (watcher_step_frame st) as (F1 & F2 & F3 & F4 & _).
    unfold Common in *. rewrite F1, F2, F3, F4. exact H.
Qed.

Lemma run_invariant (w : World) (I : State -> Prop) :
  (forall st e, I st -> I (step w st e)) ->
  forall sched st, I st -> I (run w sched st).
Proof.
  intros Hstep sched. unfold run.
  induction sched as [|e sched IH]; intros st H; simpl; auto.
Qed.

Lemma Common_run (w : World) (c : ConfYaml) (req : RequestPush) (sched : list Event) :
  Common w c req (handleNotification w c req sched).
Proof.
  unfold handleNotification.
  apply (run_invariant w (Common w c req)).
  - intros st e. apply Common_step.
  - apply Common_enter.
Qed.

(** ** Schedules *)

Lemma run_app (w : World) (s1 s2 : list Event) (st : State) :
  run w (s1 ++ s2) st = run w s2 (run w s1 st).
Proof. unfold run. apply fold_left_app. Qed.

(** In asynchronous mode, when the queue accepts every notification, [j]
    moves of the coordinator are [j] iterations of the second loop. *)
Lemma async_loop (w : World) (j : nat) :
  forall (st : State) (i : nat),
    pc st = Looping i ->
    Sync (Core (cfg st)) = false ->
    (i + j <= length (newNotification st))%nat ->
    (forall k, (k < i + j)%nat -> submit w k = None) ->
    let st' := run w (repeat Coord j) st in
    pc st' = Looping (i + j) /\ logs st' = logs st /\ wg st' = wg st /\
    cfg st' = cfg st /\ newNotification st' = newNotification st /\
    tasks st' = tasks st /\
    queued st' = queued st ++ take j (drop i (newNotification st)).
Proof.
  induction j as [|j IH]; intros st i Hpc Hs Hle Hsub; simpl.
  - rewrite Nat.add_0_r, app_nil_r. auto 10.
  - assert (Hlt : (i < length (newNotification st))%nat) by lia.
    destruct (lookup_lt_is_Some_2 _ _ Hlt) as [n Hn].
    assert (E : coord_step w st = add_count (with_queued st (queued st ++ [n])) i n).
    { unfold coord_step. rewrite Hpc, Hn. unfold coord_iteration, register_unit.
      rewrite Hs. cbv beta iota. rewrite Hs, andb_false_r. unfold submit_notification.
      rewrite (Hsub i ltac:(lia)). simpl. rewrite Hpc. reflexivity. }
    rewrite E.
    specialize (IH (add_count (with_queued st (queued st ++ [n])) i n)
                   (S i) eq_refl Hs).
    simpl in IH. replace (i + S j)%nat with (S (i + j))%nat by lia.
    destruct (IH ltac:(lia) ltac:(intros k' Hk'; apply Hsub; lia))
      as (I1 & I2 & I3 & I4 & I5 & I6 & I7).
    repeat split; auto.
    rewrite I7, <- app_assoc. f_equal.
    rewrite (drop_S _ _ _ Hn). reflexivity.
Qed.

(** ** The barrier in synchronous mode *)

Lemma live_range (t : Task) : 0 <= live t <= 1.
Proof. unfold live. destruct (phase t); lia. Qed.

Lemma lives_nonneg (ts : list Task) : 0 <= lives ts.
Proof.
  unfold lives. induction ts as [|t ts IH]; simpl; [lia|].
  pose proof (live_range t). lia.
Qed.

Lemma lives_app (ts1 ts2 : list Task) : lives (ts1 ++ ts2) = lives ts1 + lives ts2.
Proof.
  unfold lives. induction ts1 as [|t ts1 IH]; simpl; [reflexivity|]. rewrite IH. lia.
Qed.

Lemma lives_insert (ts : list Task) (k : nat) (t t' : Task) :
  ts !! k = Some t -> lives (<[k := t']> ts) = lives ts - live t + live t'.
Proof.
  revert k. induction ts as [|t0 ts IH]; intros k H; [discriminate|].
  destruct k as [|k]; simpl in *.
  - injection H as ->. unfold lives. simpl. lia.
  - unfold lives in *. simpl. rewrite (IH k H). lia.
Qed.

Lemma lives_lookup (ts : list Task) (k : nat) (t : Task) :
  ts !! k = Some t -> live t <= lives ts.
Proof.
  revert k. induction ts as [|t0 ts IH]; intros k H; [discriminate|].
  destruct k as [|k]; simpl in *.
  - injection H as ->. pose proof (lives_nonneg ts). unfold lives in *. simpl. lia.
  - specialize (IH k H). pose proof (live_range t0). unfold lives in *. simpl. lia.
Qed.

Lemma rejected_nonneg (w : World) (i : nat) : 0 <= rejected w i.
Proof. induction i as [|i IH]; simpl; [lia|]. destruct (submit w i); lia. Qed.

Lemma rejected_mono (w : World) (i j : nat) : (i <= j)%nat -> rejected w i <= rejected w j.
Proof.
  induction 1 as [|j Hle IH]; [lia|]. simpl. destruct (submit w j); lia.
Qed.

Lemma rejected_pos (w : World) (k n : nat) (err : string) :
  (k < n)%nat -> submit w k = Some err -> 1 <= rejected w n.
Proof.
  intros Hlt Hs. pose proof (rejected_mono w (S k) n Hlt) as H.
  simpl in H. rewrite Hs in H. pose proof (rejected_nonneg w k). lia.
Qed.

(** What one move of a closure does to the tasks and to the counter. *)
Lemma work_step_cases (w : World) (st : State) (k : nat) :
  work_step w st k = st \/
  exists t p,
    tasks st !! k = Some t /\ live t = 1 /\ p <> Queued /\
    (phase t = Queued -> outcome t <> SendNeverReturns) /\
    tasks (work_step w st k) = <[k := set_phase t p]> (tasks st) /\
    ((live (set_phase t p) = 1 /\ wg (work_step w st k) = wg st) \/
     (live (set_phase t p) = 0 /\ 1 <= wg st /\ wg (work_step w st k) = wg st - 1) \/
     (p = Crashed /\ wg st < 1)).
Proof.
  unfold work_step. destruct (tasks st !! k) as [t|] eqn:Ek; [|auto].
  unfold task_step. destruct (phase t) as [|old respLogs|ret|ret|] eqn:Ep; auto.
  - destruct (outcome t) as [respLogs [err|]|] eqn:Eo; auto.
    + destruct (strings_Contains err "Unregistered").
      * right. exists t, (Appending (logs st) respLogs).
        unfold live. rewrite Ep. simpl. repeat split; auto; congruence.
      * right. exists t, (Returning (Some err)).
        unfold live. rewrite Ep. simpl. repeat split; auto; congruence.
    + right. exists t, (Appending (logs st) respLogs).
      unfold live. rewrite Ep. simpl. repeat split; auto; congruence.
  - right. exists t, (Returning None).
    unfold live. rewrite Ep. simpl. repeat split; auto; congruence.
  - right. unfold wg_Done, wg_Add.
    destruct (wg st + -1 <? 0) eqn:Ew.
    + exists t, Crashed. apply Z.ltb_lt in Ew.
      unfold live. rewrite Ep. simpl. repeat split; auto; try congruence.
      right. right. split; [reflexivity|lia].
    + exists t, (Finished ret). apply Z.ltb_ge in Ew.
      unfold live. rewrite Ep. simpl. repeat split; auto; try congruence.
      right. left. repeat split; lia.
Qed.

Lemma hung_present_insert (w : World) (i k : nat) (ts : list Task) (t : Task) (p : Phase) :
  ts !! k = Some t -> hung_present w i ts -> hung_present w i (<[k := set_phase t p]> ts).
Proof.
  intros Hk H j Hj Hs Hn. destruct (H j Hj Hs Hn) as (j' & t' & Hl & Ho).
  destruct (decide (k = j')) as [->|Hne].
  - exists j', (set_phase t p). split.
    + apply list_lookup_insert_eq. eapply lookup_lt_Some; eauto.
    + simpl. congruence.
  - exists j', t'. split; [|exact Ho]. rewrite list_lookup_insert_ne; auto.
Qed.

Lemma SyncInv_coord (w : World) (st : State) :
  SyncInv w st -> SyncInv w (coord_step w st).
Proof.
  intros (Hs & Hl & H). unfold coord_step.
  destruct (pc st) as [r|i| |cnt l|] eqn:Epc.
  - (* entry *)
    unfold coord_entry, SyncInv, downgrade, position. rewrite Hs, Hl. simpl.
    rewrite Hs, Hl, H. repeat split; auto.
    + lia.
    + constructor.
    + intros k Hk. lia.
  - (* an iteration, or the end of the loop *)
    destruct H as (Hpos & Hwg & Hst & Hpr & _). unfold position in Hpos, Hwg, Hpr.
    rewrite Epc in Hpos, Hwg, Hpr.
    destruct (newNotification st !! i) as [n|] eqn:En.
    + pose proof (lookup_lt_Some _ _ _ En) as Hlt.
      pose proof (lives_nonneg (tasks st)). pose proof (rejected_nonneg w i).
      unfold coord_iteration, register_unit, wg_Add. rewrite Hs.
      destruct (wg st + 1 <? 0) eqn:Ew; [apply Z.ltb_lt in Ew; lia|].
      cbv beta iota. cbn [cfg with_wg]. rewrite Hs, Hl. cbn [andb].
      unfold submit_closure. destruct (submit w i) as [err|] eqn:Esub.
      * cbn [pc with_wg]. rewrite Epc. unfold add_count, SyncInv, position.
        cbn -[lives rejected]. rewrite Hs, Hl.
        split; [reflexivity|]. split; [reflexivity|]. split; [lia|].
        split; [cbn [rejected]; rewrite Esub; lia|]. split; [exact Hst|].
        split; [|exact I].
        intros k Hk Hnone. assert (k <> i) by congruence. apply Hpr; [lia|exact Hnone].
      * cbn [pc with_wg with_tasks]. rewrite Epc. unfold add_count, SyncInv, position.
        cbn -[lives rejected]. rewrite Hs, Hl, lives_app.
        split; [reflexivity|]. split; [reflexivity|]. split; [lia|].
        split; [cbn [rejected]; rewrite Esub;
                change (lives [mkTask n (send w i) Queued]) with 1; lia|].
        split; [apply Forall_app; split; [exact Hst|]; constructor; [auto|constructor]|].
        split; [|exact I].
        intros k Hk Hnone Hnever. destruct (decide (k = i)) as [->|Hne].
        -- exists (length (tasks st)), (mkTask n (send w i) Queued). split; [|exact Hnever].
           rewrite lookup_app_r by lia. now rewrite Nat.sub_diag.
        -- destruct (Hpr k ltac:(lia) Hnone Hnever) as (j & t & Hj & Ho).
           exists j, t. split; [|exact Ho]. apply lookup_app_l_Some. exact Hj.
    + apply lookup_ge_None in En. rewrite Hs.
      unfold SyncInv, position. cbn. rewrite Hs, Hl. repeat split; auto.
      * now replace (length (newNotification st)) with i by lia.
      * intros k Hk. apply Hpr. lia.
  - (* blocked in wg.Wait() *)
    destruct H as (Hpos & Hwg & Hst & Hpr & _). unfold position in Hpos, Hwg, Hpr.
    rewrite Epc in Hpos, Hwg, Hpr.
    destruct (wg st =? 0) eqn:Ew.
    + apply Z.eqb_eq in Ew. unfold SyncInv, coord_return, position. cbn.
      rewrite Hs, Hl. repeat split; auto.
    + unfold SyncInv, position. rewrite Hs, Hl, Epc. repeat split; auto.
  - unfold SyncInv. rewrite Hs, Hl, Epc. auto.
  - destruct H.
Qed.

Lemma SyncInv_work (w : World) (st : State) (k : nat) :
  SyncInv w st -> SyncInv w (work_step w st k).
Proof.
  intros H. destruct (work_step_cases w st k) as [->|(t & p & Hk & Hlive & Hp & Hq & Ht & Hw)];
    [exact H|].
  destruct (work_step_frame w st k) as (F1 & F2 & F3 & _).
  destruct H as (Hs & Hl & H). unfold SyncInv, position. rewrite F1, F2, F3.
  split; [exact Hs|]. split; [exact Hl|].
  destruct (pc st) as [r|i| |cnt l|] eqn:Epc.
  - rewrite H in Hk. discriminate.
  - unfold position in H. rewrite Epc in H. destruct H as (Hpos & Hwg & Hst & Hpr & _).
    rewrite Ht, (lives_insert _ _ _ _ Hk).
    pose proof (lives_lookup _ _ _ Hk). pose proof (rejected_nonneg w i).
    repeat split; auto.
    + destruct Hw as [[? ?]|[(? & ? & ?)|[? ?]]]; lia.
    + apply Forall_insert; [exact Hst|]. simpl. intros Ho.
      pose proof (Forall_lookup_1 _ _ _ _ Hst Hk Ho) as Hph.
      destruct (Hq Hph Ho).
    + apply hung_present_insert; assumption.
  - unfold position in H. rewrite Epc in H. destruct H as (Hpos & Hwg & Hst & Hpr & _).
    rewrite Ht, (lives_insert _ _ _ _ Hk).
    pose proof (lives_lookup _ _ _ Hk).
    pose proof (rejected_nonneg w (length (newNotification st))).
    repeat split; auto.
    + destruct Hw as [[? ?]|[(? & ? & ?)|[? ?]]]; lia.
    + apply Forall_insert; [exact Hst|]. simpl. intros Ho.
      pose proof (Forall_lookup_1 _ _ _ _ Hst Hk Ho) as Hph.
      destruct (Hq Hph Ho).
    + apply hung_present_insert; assumption.
  - unfold position in H. rewrite Epc in H. destruct H as (Hpos & Hwg & Hst & Hpr & Hz).
    pose proof (lives_lookup _ _ _ Hk).
    pose proof (rejected_nonneg w (length (newNotification st))). lia.
  - destruct H.
Qed.

Lemma SyncInv_watcher (w : World) (st : State) :
  SyncInv w st -> SyncInv w (watcher_step st).
Proof.
  destruct (watcher_step_frame st) as (F1 & F2 & F3 & F4 & F5 & F6 & F7 & _).
  unfold SyncInv, position. rewrite F1, F2, F3, F5, F7. auto.
Qed.

Lemma SyncInv_run (w : World) (c : ConfYaml) (req : RequestPush) (sched : list Event) :
  Sync (Core c) = true -> IsLocalQueue w (Engine (Queue c)) = true ->
  SyncInv w (handleNotification w c req sched).
Proof.
  intros Hs Hl. unfold handleNotification.
  apply (run_invariant w (SyncInv w)).
  - intros st [|k|]; simpl.
    + apply SyncInv_coord.
    + apply SyncInv_work.
    + apply SyncInv_watcher.
  - unfold SyncInv, enter. simpl. auto.
Qed.

Lemma coord_step_ctx (w : World) (st : State) :
  ctxCancelled (coord_step w st) = ctxCancelled st.
Proof.
  unfold coord_step. destruct (pc st) as [r|i| |cnt l|]; auto.
  - destruct (newNotification st !! i) as [n|].
    + apply coord_iteration_frame.
    + destruct (Sync (Core (cfg st))); reflexivity.
  - destruct (wg st =? 0); reflexivity.
Qed.

Lemma ctxCancelled_stays (w : World) (sched : list Event) (st : State) :
  ctxCancelled st = true -> ctxCancelled (run w sched st) = true.
Proof.
  apply (run_invariant w (fun st => ctxCancelled st = true)).
  intros st' [|k|] H; simpl.
  - now rewrite coord_step_ctx.
  - destruct (work_step_frame w st' k) as (_ & _ & _ & _ & _ & _ & F). now rewrite F.
  - unfold watcher_step. destruct (Sync (Core (cfg st'))); auto.
Qed.

(** In synchronous mode the wait ends as soon as every closure has run its
    deferred [wg.Done()], provided no submission was rejected. *)
Lemma sync_wait_returns (w : World) (st : State) :
  SyncInv w st -> pc st = Waiting ->
  lives (tasks st) = 0 -> rejected w (length (newNotification st)) = 0 ->
  pc (coord_step w st) = Returned (count st) (logs st).
Proof.
  intros (_ & _ & H) Hpc Hl Hr. rewrite Hpc in H. unfold position in H. rewrite Hpc in H.
  destruct H as (_ & Hwg & _). unfold coord_step. rewrite Hpc.
  replace (wg st) with 0 by lia. reflexivity.
Qed.

Lemma cfg_reached (w : World) (c : ConfYaml) (req : RequestPush) (sched : list Event) :
  let st := handleNotification w c req sched in
  (exists r, pc st = Entry r /\ cfg st = c) \/
  ((forall r, pc st <> Entry r) /\ cfg st = downgrade w c).
Proof.
  intros st. pose proof (Common_run w c req sched) as H. fold st in H. unfold Common in H.
  destruct (pc st) as [r|i| |cnt l|].
  - left. exists r. split; [reflexivity|apply H].
  - right. split; [discriminate|apply H].
  - right. split; [discriminate|apply H].
  - right. split; [discriminate|apply H].
  - right. split; [discriminate|apply H].
Qed.

Lemma downgrade_Sync (w : World) (c : ConfYaml) :
  Sync (Core (downgrade w c)) = Sync (Core c) && IsLocalQueue w (Engine (Queue c)).
Proof.
  unfold downgrade.
  destruct (Sync (Core c)) eqn:Es, (IsLocalQueue w (Engine (Queue c))) eqn:El;
    simpl; rewrite ?Es; reflexivity.
Qed.

Lemma never_waits_async (w : World) (c : ConfYaml) (req : RequestPush) (sched : list Event) :
  pc (handleNotification w c req sched) = Waiting ->
  Sync (Core c) && IsLocalQueue w (Engine (Queue c)) = true.
Proof.
  intros Hpc. pose proof (Common_run w c req sched) as H. unfold Common in H.
  rewrite Hpc in H. destruct H as (Hc & _ & Hs & _).
  rewrite Hc, downgrade_Sync in Hs. exact Hs.
Qed.

(** In asynchronous mode, when the queue accepts every notification, the
    coordinator returns after its own moves alone: one for the entry, one
    per notification, one to leave the loop. *)
Lemma async_returns (w : World) (c : ConfYaml) (req : RequestPush) :
  Sync (Core (downgrade w c)) = false ->
  (forall k, (k < length (filter_platforms c req))%nat -> submit w k = None) ->
  let st := handleNotification w c req
              (repeat Coord (length (filter_platforms c req) + 2)) in
  pc st = Returned (int_wrap (expected_count c req)) [] /\
  tasks st = [] /\ queued st = filter_platforms c req /\ wg st = 0.
Proof.
  intros Hs Hsub st.
  set (n := length (filter_platforms c req)) in *.
  assert (Est : st = coord_step w (run w (repeat Coord n)
                                    (coord_entry w (enter c req) req))).
  { subst st. unfold handleNotification.
    replace (n + 2)%nat with (1 + (n + 1))%nat by lia.
    rewrite !repeat_app, !run_app. reflexivity. }
  pose proof (async_loop w n (coord_entry w (enter c req) req) 0 eq_refl) as L.
  cbn [coord_entry cfg newNotification enter] in L.
  rewrite filter_platforms_downgrade in L.
  specialize (L Hs ltac:(fold n; lia) Hsub).
  cbv zeta in L. destruct L as (L1 & L2 & L3 & L4 & L5 & L6 & L7).
  set (st2 := run w (repeat Coord n) (coord_entry w (enter c req) req)) in *.
  assert (Epc : pc st = Returned (count st2) [] /\ tasks st = [] /\
                queued st = filter_platforms c req /\ wg st = 0).
  { rewrite Est. unfold coord_step. rewrite L1. simpl.
    rewrite L5.
    rewrite (proj2 (lookup_ge_None _ _)) by (fold n; lia).
    rewrite L4, Hs. unfold coord_return. cbn.
    rewrite L2, L3, L6, L7. cbn.
    repeat split; auto.
    change (drop 0 (filter_platforms c req)) with (filter_platforms c req).
    rewrite take_ge by (fold n; lia). reflexivity. }
  destruct Epc as (Epc & E2 & E3 & E4). repeat split; auto.
  pose proof (Common_run w c req (repeat Coord (n + 2))) as HC.
  fold st in HC. unfold Common in HC. rewrite Epc in HC.
  destruct HC as (_ & Hn & Hc). rewrite Epc, Hc, Hn, counts_expected. reflexivity.
Qed.

(** ** A rejected submission in asynchronous mode *)

Lemma AsyncInv_step (w : World) (st : State) (e : Event) :
  AsyncInv w st -> AsyncInv w (step w st e).
Proof.
  intros H. destruct e as [|k|]; simpl.
  - unfold AsyncInv, coord_step in *.
    destruct (pc st) as [r|i| |cnt l|] eqn:Epc;
      [ | |destruct H|rewrite Epc; exact H|rewrite Epc; exact I].
    + destruct H as (Hs & Ht). cbn. repeat split; auto. lia.
    + destruct H as (Hs & Ht & Hw & Hr & Hi).
      destruct (newNotification st !! i) as [n|] eqn:En.
      * pose proof (lookup_lt_Some _ _ _ En) as Hlt.
        unfold coord_iteration, register_unit. rewrite Hs. cbv beta iota.
        rewrite Hs, andb_false_r. unfold submit_notification.
        destruct (submit w i) as [err|] eqn:Esub.
        -- cbv zeta. cbn [wg with_logs]. rewrite Hw. cbn. exact I.
        -- cbn [pc with_queued]. rewrite Epc. unfold add_count. cbn.
           rewrite Esub. repeat split; auto; lia.
      * apply lookup_ge_None in En. rewrite Hs. cbn.
        now replace (length (newNotification st)) with i by lia.
  - assert (E : work_step w st k = st \/ pc st = Panicked \/
                (exists cnt l, pc st = Returned cnt l)).
    { unfold AsyncInv in H. destruct (pc st) as [r|i| |cnt l|] eqn:Epc; eauto.
      - left. unfold work_step. destruct H as (_ & ->). reflexivity.
      - left. unfold work_step. destruct H as (_ & -> & _). reflexivity.
      - destruct H. }
    destruct (work_step_frame w st k) as (F1 & _ & F3 & _).
    destruct E as [->|[E|(cnt & l & E)]]; [exact H| |];
      unfold AsyncInv in *; rewrite F1, ?F3; rewrite E in *; exact H.
  - destruct (watcher_step_frame st) as (F1 & F2 & F3 & F4 & F5 & F6 & F7 & _).
    unfold AsyncInv in *. rewrite F1, F2, F3, F5, F7. exact H.
Qed.

(** In asynchronous mode a call with a rejected submission never returns. *)
Lemma async_rejection_never_returns (w : World) (c : ConfYaml) (req : RequestPush)
    (sched : list Event) (k : nat) (n : PushNotification) (err : string) :
  Sync (Core (downgrade w c)) = false ->
  filter_platforms c req !! k = Some n ->
  submit w k = Some err ->
  forall cnt l, pc (handleNotification w c req sched) <> Returned cnt l.
Proof.
  intros Hs Hk Hsub cnt l Hpc.
  assert (Inv : AsyncInv w (handleNotification w c req sched)).
  { unfold handleNotification. apply (run_invariant w (AsyncInv w)).
    - intros st e. apply AsyncInv_step.
    - split; [exact Hs|reflexivity]. }
  pose proof (Common_run w c req sched) as HC. unfold Common, AsyncInv in *.
  rewrite Hpc in Inv, HC. destruct HC as (_ & Hn & _).
  rewrite Hn, filter_platforms_downgrade in Inv.
  apply lookup_lt_Some in Hk.
  pose proof (rejected_pos w k _ err Hk Hsub). lia.
Qed.

(** It panics at the [wg.Done()] of line 332: the counter is zero. *)
Lemma async_rejection_panics (w : World) (c : ConfYaml) (req : RequestPush)
    (k : nat) (n : PushNotification) (err : string) :
  Sync (Core (downgrade w c)) = false ->
  filter_platforms c req !! k = Some n ->
  (forall j, (j < k)%nat -> submit w j = None) ->
  submit w k = Some err ->
  let st := handleNotification w c req (repeat Coord (k + 2)) in
  pc st = Panicked /\
  logs st = markFailedNotification w (downgrade w c) n "max capacity reached".
Proof.
  intros Hs Hk Hacc Hsub st.
  assert (Est : st = coord_step w (run w (repeat Coord k)
                                    (coord_entry w (enter c req) req))).
  { subst st. unfold handleNotification.
    replace (k + 2)%nat with (1 + (k + 1))%nat by lia.
    rewrite !repeat_app, !run_app. reflexivity. }
  pose proof (lookup_lt_Some _ _ _ Hk) as Hlt.
  pose proof (async_loop w k (coord_entry w (enter c req) req) 0 eq_refl) as L.
  cbn [coord_entry cfg newNotification enter] in L.
  rewrite filter_platforms_downgrade in L.
  specialize (L Hs ltac:(lia) Hacc).
  cbv zeta in L. destruct L as (L1 & L2 & L3 & L4 & L5 & L6 & L7).
  set (st2 := run w (repeat Coord k) (coord_entry w (enter c req) req)) in *.
  rewrite Est. unfold coord_step. rewrite L1. cbn [Nat.add]. rewrite L5, Hk.
  unfold coord_iteration, register_unit. rewrite L4, Hs. cbv beta iota.
  rewrite L4, Hs, andb_false_r. unfold submit_notification. rewrite Hsub.
  cbv zeta. cbn [wg with_logs]. rewrite L3, L2, L4. cbn. auto.
Qed.

(** ** The closure, run on its own *)

Lemma sync_live_task_wg (w : World) (st : State) (k : nat) (t : Task) :
  SyncInv w st -> tasks st !! k = Some t -> live t = 1 -> 1 <= wg st.
Proof.
  intros (_ & _ & H) Hk Hlive. pose proof (lives_lookup _ _ _ Hk) as Hle.
  destruct (pc st) as [r|i| |cnt l|] eqn:Epc.
  - rewrite H in Hk. discriminate.
  - destruct H as (_ & Hwg & _). pose proof (rejected_nonneg w (position st)). lia.
  - destruct H as (_ & Hwg & _). pose proof (rejected_nonneg w (position st)). lia.
  - destruct H as (_ & Hwg & _). pose proof (rejected_nonneg w (position st)). lia.
  - destruct H.
Qed.

Lemma work_step_at (w : World) (st : State) (k : nat) (t : Task) :
  tasks st !! k = Some t -> work_step w st k = task_step w st k t.
Proof. intros H. unfold work_step. now rewrite H. Qed.

Lemma set_task_lookup (st : State) (k : nat) (t t' : Task) :
  tasks st !! k = Some t -> tasks (set_task st k t') !! k = Some t'.
Proof.
  intros H. unfold set_task. simpl. apply list_lookup_insert_eq.
  eapply lookup_lt_Some; eauto.
Qed.

(** The deferred [wg.Done()] of a closure, the counter being positive. *)
Lemma task_step_Returning (w : World) (st : State) (k : nat) (t : Task)
    (ret : option string) :
  phase t = Returning ret -> 1 <= wg st ->
  task_step w st k t = set_task (with_wg st (wg st - 1)) k (set_phase t (Finished ret)).
Proof.
  intros Hp Hw. unfold task_step. rewrite Hp. unfold wg_Done, wg_Add.
  destruct (wg st + -1 <? 0) eqn:E; [apply Z.ltb_lt in E; lia|].
  replace (wg st + -1) with (wg st - 1) by lia. reflexivity.
Qed.

(** The three ways through the closure, each run without another
    goroutine moving in between. *)
Lemma closure_generic_error (w : World) (st : State) (k : nat) (t : Task)
    (respLogs : list LogPushEntry) (err : string) :
  tasks st !! k = Some t ->
  phase t = Queued ->
  outcome t = SendReturns respLogs (Some err) ->
  strings_Contains err "Unregistered" = false ->
  1 <= wg st ->
  run w [Work k; Work k] st
  = with_tasks (with_wg st (wg st - 1))
               (<[k := set_phase t (Finished (Some err))]> (tasks st)).
Proof.
  intros Hk Hp Ho Hc Hw.
  set (t1 := set_phase t (Returning (Some err))).
  assert (E1 : work_step w st k = set_task st k t1).
  { rewrite (work_step_at w st k t Hk). unfold task_step. rewrite Hp, Ho, Hc. reflexivity. }
  unfold run. simpl. rewrite E1.
  rewrite (work_step_at w _ k t1 (set_task_lookup st k t t1 Hk)).
  rewrite (task_step_Returning w (set_task st k t1) k t1 (Some err) eq_refl Hw).
  unfold set_task, with_tasks, with_wg. cbn. now rewrite list_insert_insert_eq.
Qed.

Lemma closure_appends (w : World) (st : State) (k : nat) (t : Task)
    (respLogs : list LogPushEntry) (err : option string) :
  tasks st !! k = Some t ->
  phase t = Queued ->
  outcome t = SendReturns respLogs err ->
  match err with
  | Some e => strings_Contains e "Unregistered" = true
  | None => True
  end ->
  1 <= wg st ->
  run w [Work k; Work k; Work k] st
  = with_tasks
      (with_wg
         (with_logs
            (with_spawned st
               match err with
               | Some _ => spawn_reclaims w (msg t) (spawned st)
               | None => spawned st
               end)
            (logs st ++ respLogs))
         (wg st - 1))
      (<[k := set_phase t (Finished None)]> (tasks st)).
Proof.
  intros Hk Hp Ho Hc Hw.
  set (sp := match err with
             | Some _ => spawn_reclaims w (msg t) (spawned st)
             | None => spawned st
             end).
  set (t1 := set_phase t (Appending (logs st) respLogs)).
  set (st1 := set_task (with_spawned st sp) k t1).
  assert (E1 : work_step w st k = st1).
  { rewrite (work_step_at w st k t Hk). unfold task_step. rewrite Hp, Ho.
    subst st1 sp. destruct err as [e|]; [rewrite Hc|]; reflexivity. }
  assert (K1 : tasks st1 !! k = Some t1).
  { apply (set_task_lookup (with_spawned st sp) k t t1 Hk). }
  set (t2 := set_phase t1 (Returning None)).
  set (st2 := set_task (with_logs st1 (logs st ++ respLogs)) k t2).
  assert (E2 : work_step w st1 k = st2).
  { rewrite (work_step_at w st1 k t1 K1). reflexivity. }
  assert (K2 : tasks st2 !! k = Some t2).
  { apply (set_task_lookup (with_logs st1 (logs st ++ respLogs)) k t1 t2 K1). }
  unfold run. simpl. rewrite E1, E2.
  rewrite (work_step_at w st2 k t2 K2).
  rewrite (task_step_Returning w st2 k t2 None eq_refl Hw).
  unfold set_task, with_tasks, with_wg. cbn. now rewrite !list_insert_insert_eq.
Qed.

(** Whatever its send returned, a queued closure is finished after three
    moves of its own. *)
Lemma closure_finishes (w : World) (st : State) (k : nat) (t : Task) :
  tasks st !! k = Some t ->
  phase t = Queued ->
  outcome t <> SendNeverReturns ->
  1 <= wg st ->
  let st' := run w [Work k; Work k; Work k] st in
  (exists ret, tasks st' = <[k := set_phase t (Finished ret)]> (tasks st)) /\
  pc st' = pc st /\ newNotification st' = newNotification st /\
  logs st' = logs st ++ appended (outcome t).
Proof.
  intros Hk Hp Ho Hw.
  destruct (outcome t) as [respLogs err|] eqn:Eo; [|congruence].
  assert (D : (exists e, err = Some e /\ strings_Contains e "Unregistered" = false) \/
              match err with
              | Some e => strings_Contains e "Unregistered" = true
              | None => True
              end).
  { destruct err as [e|]; [|auto].
    destruct (strings_Contains e "Unregistered") eqn:Ec; eauto. }
  destruct D as [(e & -> & Hc)|Hc].
  - change [Work k; Work k; Work k] with ([Work k; Work k] ++ [Work k]).
    rewrite run_app, (closure_generic_error w st k t respLogs e Hk Hp Eo Hc Hw).
    unfold run. simpl. unfold work_step. cbn.
    rewrite list_lookup_insert_eq by (eapply lookup_lt_Some; eauto).
    cbn. rewrite Hc, app_nil_r. eauto.
  - rewrite (closure_appends w st k t respLogs err Hk Hp Eo Hc Hw). cbn.
    destruct err as [e|]; [rewrite Hc|]; eauto.
Qed.

(** ** A synchronous call that returns *)

Lemma SyncInv_from (w : World) (sched : list Event) (st : State) :
  SyncInv w st -> SyncInv w (run w sched st).
Proof.
  apply (run_invariant w (SyncInv w)).
  intros st' [|k|]; simpl.
  - apply SyncInv_coord.
  - apply SyncInv_work.
  - apply SyncInv_watcher.
Qed.

(** In synchronous mode, when the queue accepts every closure, [j] moves of
    the coordinator are [j] iterations of the second loop, each adding a
    unit and a closure with the send of its position. *)
Lemma sync_loop (w : World) (j : nat) :
  forall (st : State) (i : nat),
    pc st = Looping i ->
    Sync (Core (cfg st)) = true ->
    IsLocalQueue w (Engine (Queue (cfg st))) = true ->
    0 <= wg st ->
    (i + j <= length (newNotification st))%nat ->
    (forall k, submit w k = None) ->
    Forall (fun t => phase t = Queued) (tasks st) ->
    let st' := run w (repeat Coord j) st in
    pc st' = Looping (i + j) /\ cfg st' = cfg st /\
    newNotification st' = newNotification st /\
    logs st' = logs st /\
    Forall (fun t => phase t = Queued) (tasks st') /\
    map outcome (tasks st') = map outcome (tasks st) ++ map (send w) (seq i j).
Proof.
  induction j as [|j IH]; intros st i Hpc Hs Hl Hw Hle Hsub Hf; simpl.
  - rewrite !Nat.add_0_r, app_nil_r. auto 10.
  - assert (Hlt : (i < length (newNotification st))%nat) by lia.
    destruct (lookup_lt_is_Some_2 _ _ Hlt) as [n Hn].
    set (st1 := add_count (with_tasks (with_wg st (wg st + 1))
                             (tasks st ++ [mkTask n (send w i) Queued])) i n).
    assert (E : coord_step w st = st1).
    { unfold coord_step. rewrite Hpc, Hn.
      unfold coord_iteration, register_unit, wg_Add. rewrite Hs.
      destruct (wg st + 1 <? 0) eqn:Ew; [apply Z.ltb_lt in Ew; lia|].
      cbv beta iota. cbn [cfg with_wg]. rewrite Hs, Hl. cbn [andb].
      unfold submit_closure. rewrite Hsub. cbn [pc with_wg with_tasks].
      rewrite Hpc. reflexivity. }
    rewrite E.
    assert (Hf1 : Forall (fun t => phase t = Queued) (tasks st1)).
    { subst st1. cbn. apply Forall_app. split; [exact Hf|].
      constructor; [reflexivity|constructor]. }
    specialize (IH st1 (S i) eq_refl Hs Hl ltac:(subst st1; cbn; lia)
                   ltac:(subst st1; cbn; lia) Hsub Hf1).
    cbv zeta in IH. destruct IH as (I1 & I2 & I3 & I4 & I5 & I6).
    replace (i + S j)%nat with (S i + j)%nat by lia.
    repeat split; auto.
    rewrite I6. subst st1. cbn. rewrite map_app, <- app_assoc. reflexivity.
Qed.

Lemma lives_queued (ts : list Task) :
  Forall (fun t => phase t = Queued) ts -> lives ts = Z.of_nat (length ts).
Proof.
  induction 1 as [|t ts Hp _ IH]; [reflexivity|].
  unfold lives in *. simpl. rewrite IH. unfold live. rewrite Hp. lia.
Qed.

Lemma rejected_none (w : World) (i : nat) :
  (forall k, submit w k = None) -> rejected w i = 0.
Proof. intros H. induction i as [|i IH]; simpl; [reflexivity|]. rewrite IH, H. reflexivity. Qed.



(** ** Further properties of [handleNotification] *)

Lemma coord_iteration_wg (w : World) (st : State) (i : nat) (n : PushNotification) :
  0 <= wg st -> 0 <= wg (coord_iteration w st i n) <= wg st + 1.
Proof.
  intros Hw. unfold coord_iteration, register_unit, wg_Add.
  assert (R : forall st1 : State,
             0 <= wg st1 <= wg st + 1 ->
             0 <= wg (match pc (if IsLocalQueue w (Engine (Queue (cfg st1))) &&
                                    Sync (Core (cfg st1))
                                 then submit_closure w st1 i n
                                 else submit_notification w st1 i n) with
                      | Panicked =>
                          if IsLocalQueue w (Engine (Queue (cfg st1))) &&
                             Sync (Core (cfg st1))
                          then submit_closure w st1 i n
                          else submit_notification w st1 i n
                      | _ => add_count
                               (if IsLocalQueue w (Engine (Queue (cfg st1))) &&
                                   Sync (Core (cfg st1))
                                then submit_closure w st1 i n
                                else submit_notification w st1 i n) i n
                      end) <= wg st + 1).
  { intros st1 H1.
    assert (S : 0 <= wg (if IsLocalQueue w (Engine (Queue (cfg st1))) &&
                            Sync (Core (cfg st1))
                         then submit_closure w st1 i n
                         else submit_notification w st1 i n) <= wg st + 1).
    { destruct (IsLocalQueue w (Engine (Queue (cfg st1))) && Sync (Core (cfg st1))).
      - destruct (submit_closure_frame w st1 i n) as (_ & _ & _ & _ & _ & E & _).
        rewrite E. exact H1.
      - unfold submit_notification. destruct (submit w i); [|exact H1].
        cbv zeta. cbn [wg with_logs]. unfold wg_Done, wg_Add.
        destruct (wg st1 + -1 <? 0) eqn:E; cbn; [lia|].
        apply Z.ltb_ge in E. lia. }
    destruct (pc _); unfold add_count; cbn [wg with_pc with_count]; exact S. }
  destruct (Sync (Core (cfg st))).
  - destruct (wg st + 1 <? 0) eqn:E; [cbn; lia|].
    apply R. cbn. lia.
  - apply R. lia.
Qed.

Lemma WgBound_step (w : World) (st : State) (e : Event) :
  WgBound st -> WgBound (step w st e).
Proof.
  intros ((H0 & H1) & H2). destruct e as [|k|]; simpl.
  - unfold coord_step. destruct (pc st) as [r|i| |cnt l|] eqn:Epc.
    + unfold WgBound, position. cbn. lia.
    + unfold position in H1, H2. rewrite Epc in H1, H2.
      destruct (newNotification st !! i) as [n|] eqn:En.
      * pose proof (lookup_lt_Some _ _ _ En) as Hlt.
        pose proof (coord_iteration_wg w st i n H0) as Hw.
        destruct (coord_iteration_frame w st i n) as (_ & F2 & _).
        unfold WgBound, position. rewrite F2.
        destruct (coord_iteration_pc w st i n) as [[P _]|P]; rewrite P; lia.
      * apply lookup_ge_None in En.
        destruct (Sync (Core (cfg st))); unfold WgBound, position; cbn; lia.
    + unfold position in H1, H2. rewrite Epc in H1, H2.
      destruct (wg st =? 0); unfold WgBound, position; cbn; rewrite ?Epc; lia.
    + unfold WgBound. auto.
    + unfold WgBound. auto.
  - destruct (work_step_frame w st k) as (F1 & _ & F3 & _).
    unfold WgBound, position. rewrite F1, F3. fold (position st).
    destruct (work_step_cases w st k) as [->|(t & p & _ & _ & _ & _ & _ & Hw)]; [lia|].
    destruct Hw as [[_ ->]|[(_ & ? & ->)|[-> ?]]]; try lia.
    (* the crash leaves the counter as it was *)
    unfold work_step in *. destruct (tasks st !! k) as [t'|]; [|lia].
    unfold task_step. destruct (phase t'); try lia.
    + destruct (outcome t') as [rl [err|]|]; try (cbn; lia).
      destruct (strings_Contains err "Unregistered"); cbn; lia.
    + cbn. lia.
    + unfold wg_Done, wg_Add. destruct (wg st + -1 <? 0) eqn:E; cbn; [lia|].
      apply Z.ltb_ge in E. lia.
  - destruct (watcher_step_frame st) as (F1 & _ & F3 & _ & F5 & _).
    unfold WgBound, position. rewrite F1, F3, F5. fold (position st). lia.
Qed.

Lemma filter_platforms_length (c : ConfYaml) (req : RequestPush) :
  (length (filter_platforms c req) <= length (Notifications req))%nat.
Proof. rewrite filter_platforms_filter. apply List.filter_length_le. Qed.

Lemma StatInv_step (w : World) (st : State) (e : Event) :
  StatInv st -> StatInv (step w st e).
Proof.
  intros H. destruct e as [|k|]; simpl.
  - unfold StatInv, coord_step in *.
    destruct (pc st) as [r|i| |cnt l|] eqn:Epc; rewrite ?Epc; auto.
    + destruct (newNotification st !! i) as [n|].
      * destruct (coord_iteration_frame w st i n) as (_ & _ & _ & F & _).
        destruct (coord_iteration_pc w st i n) as [[P _]|P]; rewrite P, F; exact H.
      * destruct (Sync (Core (cfg st))); cbn; rewrite ?H; reflexivity.
    + destruct (wg st =? 0); cbn; rewrite ?Epc, ?H; reflexivity.
  - destruct (work_step_frame w st k) as (F1 & _ & _ & _ & _ & F6 & _).
    unfold StatInv in *. rewrite F1, F6. exact H.
  - destruct (watcher_step_frame st) as (F1 & _ & _ & _ & _ & _ & _ & _ & _ & F10).
    unfold StatInv in *. rewrite F1, F10. exact H.
Qed.

(** ** The watcher and the rest of the call *)

Lemma coord_step_set_ctx (w : World) (st : State) (b : bool) :
  coord_step w (set_ctx st b) = set_ctx (coord_step w st) b.
Proof.
  unfold coord_step. cbn [pc set_ctx newNotification cfg wg].
  destruct (pc st) as [r|i| |cnt l|] eqn:Epc; try reflexivity.
  - destruct (newNotification st !! i) as [n|].
    + unfold coord_iteration, register_unit. cbn [cfg wg set_ctx].
      destruct (Sync (Core (cfg st))) eqn:Es.
      * destruct (wg_Add (wg st) 1) as [v|]; [|reflexivity].
        cbv beta iota. cbn [cfg with_wg set_ctx]. rewrite Es.
        destruct (IsLocalQueue w (Engine (Queue (cfg st)))); cbn [andb].
        -- unfold submit_closure. destruct (submit w i); cbn; rewrite Epc; reflexivity.
        -- unfold submit_notification. destruct (submit w i); cbn.
           ++ destruct (wg_Done v); cbn; rewrite ?Epc; reflexivity.
           ++ rewrite Epc. reflexivity.
      * cbv beta iota. cbn [cfg set_ctx]. rewrite Es, !andb_false_r.
        unfold submit_notification. destruct (submit w i); cbn.
        -- destruct (wg_Done (wg st)); cbn; rewrite ?Epc; reflexivity.
        -- rewrite Epc. reflexivity.
    + destruct (Sync (Core (cfg st))); reflexivity.
  - destruct (wg st =? 0); reflexivity.
Qed.

Lemma work_step_set_ctx (w : World) (st : State) (k : nat) (b : bool) :
  work_step w (set_ctx st b) k = set_ctx (work_step w st k) b.
Proof.
  unfold work_step. cbn [tasks set_ctx].
  destruct (tasks st !! k) as [t|]; [|reflexivity].
  unfold task_step. destruct (phase t); try reflexivity.
  - destruct (outcome t) as [rl [err|]|]; try reflexivity.
    destruct (strings_Contains err "Unregistered"); reflexivity.
  - cbn [wg set_ctx]. destruct (wg_Done (wg st)); reflexivity.
Qed.

Lemma run_strip_disconnect (w : World) (sched : list Event) :
  forall (a b : State) (x : bool),
    a = set_ctx b x ->
    exists y, run w sched a = set_ctx (run w (strip_disconnect sched) b) y.
Proof.
  induction sched as [|e sched IH]; intros a b x ->.
  - exists x. reflexivity.
  - destruct e as [|k|]; cbn [strip_disconnect List.filter run fold_left step].
    + apply (IH _ (coord_step w b) x). apply coord_step_set_ctx.
    + apply (IH _ (work_step w b k) x). apply work_step_set_ctx.
    + unfold watcher_step. cbn [cfg set_ctx].
      destruct (Sync (Core (cfg b))).
      * apply (IH _ b true). reflexivity.
      * apply (IH _ b x). reflexivity.
Qed.

(** ** More on the two modes *)

Lemma coord_iteration_sync (w : World) (st : State) (i : nat) (n : PushNotification) :
  pc st = Looping i ->
  Sync (Core (cfg st)) = true ->
  IsLocalQueue w (Engine (Queue (cfg st))) = true ->
  0 <= wg st ->
  coord_iteration w st i n = add_count (submit_closure w (with_wg st (wg st + 1)) i n) i n.
Proof.
  intros Hpc Hs Hl Hw. unfold coord_iteration, register_unit, wg_Add. rewrite Hs.
  destruct (wg st + 1 <? 0) eqn:Ew; [apply Z.ltb_lt in Ew; lia|].
  cbv beta iota. cbn [cfg with_wg]. rewrite Hs, Hl. cbn [andb].
  destruct (submit_closure_frame w (with_wg st (wg st + 1)) i n) as (_ & _ & P & _).
  rewrite P. cbn [pc with_wg]. rewrite Hpc. reflexivity.
Qed.

Lemma sync_wg_nonneg (w : World) (st : State) :
  SyncInv w st -> (forall r, pc st <> Entry r) -> 0 <= wg st.
Proof.
  intros (_ & _ & H) Hne. pose proof (lives_nonneg (tasks st)).
  pose proof (rejected_nonneg w (position st)).
  destruct (pc st) as [r|i| |cnt l|] eqn:Epc.
  - destruct (Hne r eq_refl).
  - destruct H as (_ & Hwg & _). lia.
  - destruct H as (_ & Hwg & _). lia.
  - destruct H as (_ & Hwg & _). lia.
  - destruct H.
Qed.

(** A move of a closure, as to the phase it reaches. *)
Lemma work_step_phase (w : World) (st : State) (k : nat) :
  work_step w st k = st \/
  exists t p,
    tasks st !! k = Some t /\ live t = 1 /\
    tasks (work_step w st k) = <[k := set_phase t p]> (tasks st) /\
    (p = Crashed -> wg st < 1).
Proof.
  unfold work_step. destruct (tasks st !! k) as [t|] eqn:Ek; [|auto].
  unfold task_step. destruct (phase t) as [|old respLogs|ret|ret|] eqn:Ep; auto.
  - destruct (outcome t) as [respLogs [err|]|] eqn:Eo; auto.
    + destruct (strings_Contains err "Unregistered").
      * right. exists t, (Appending (logs st) respLogs).
        unfold live. rewrite Ep. repeat split; auto; discriminate.
      * right. exists t, (Returning (Some err)).
        unfold live. rewrite Ep. repeat split; auto; discriminate.
    + right. exists t, (Appending (logs st) respLogs).
      unfold live. rewrite Ep. repeat split; auto; discriminate.
  - right. exists t, (Returning None).
    unfold live. rewrite Ep. repeat split; auto; discriminate.
  - right. unfold wg_Done, wg_Add.
    destruct (wg st + -1 <? 0) eqn:Ew.
    + exists t, Crashed. apply Z.ltb_lt in Ew.
      unfold live. rewrite Ep. repeat split; auto. intros _. lia.
    + exists t, (Finished ret).
      unfold live. rewrite Ep. repeat split; auto; discriminate.
Qed.

Lemma SyncAccount_step (w : World) (st : State) (e : Event) :
  SyncInv w st -> SyncAccount w st -> SyncAccount w (step w st e).
Proof.
  intros Inv (Hc & Hq & Hn). destruct e as [|k|]; simpl.
  - unfold coord_step. destruct (pc st) as [r|i| |cnt l|] eqn:Epc.
    + destruct Inv as (_ & _ & Ht). rewrite Epc in Ht.
      unfold SyncAccount, position. cbn. rewrite Ht, Hq. repeat split; auto.
    + destruct (newNotification st !! i) as [n|] eqn:En.
      * pose proof (sync_wg_nonneg w st Inv ltac:(rewrite Epc; discriminate)) as Hw.
        destruct Inv as (Hs & Hl & _).
        rewrite (coord_iteration_sync w st i n Epc Hs Hl Hw).
        unfold position in Hn. rewrite Epc in Hn.
        unfold SyncAccount, position, add_count, submit_closure.
        destruct (submit w i) as [err|] eqn:Esub; cbn -[rejected Z.of_nat].
        -- cbn [rejected]. rewrite Esub. repeat split; auto. lia.
        -- cbn [rejected]. rewrite Esub, length_app. repeat split; auto.
           ++ apply Forall_app. split; [exact Hc|]. constructor; [discriminate|constructor].
           ++ cbn [length]. lia.
      * apply lookup_ge_None in En. destruct Inv as (Hs & _ & Hp).
        rewrite Epc in Hp. destruct Hp as (Hpos & _). unfold position in Hpos, Hn.
        rewrite Epc in Hpos, Hn. rewrite Hs.
        unfold SyncAccount, position. cbn -[rejected Z.of_nat].
        replace (length (newNotification st)) with i by lia. auto.
    + unfold position in Hn. rewrite Epc in Hn.
      destruct (wg st =? 0); unfold SyncAccount, position; cbn -[rejected Z.of_nat];
        rewrite ?Epc; auto.
    + unfold SyncAccount. auto.
    + unfold SyncAccount. auto.
  - destruct (work_step_frame w st k) as (F1 & _ & F3 & _ & F5 & _).
    unfold SyncAccount, position. rewrite F1, F3, F5. fold (position st).
    destruct (work_step_phase w st k) as [->|(t & p & Hk & Hlive & Ht & Hp)]; [auto|].
    rewrite Ht, length_insert. repeat split; auto.
    apply Forall_insert; [exact Hc|]. cbn. intros ->.
    pose proof (sync_live_task_wg w st k t Inv Hk Hlive). specialize (Hp eq_refl). lia.
  - destruct (watcher_step_frame st) as (F1 & _ & F3 & _ & _ & _ & F7 & F8 & _).
    unfold SyncAccount, position. rewrite F1, F3, F7, F8. auto.
Qed.

Lemma SyncAccount_run (w : World) (c : ConfYaml) (req : RequestPush) (sched : list Event) :
  Sync (Core c) = true -> IsLocalQueue w (Engine (Queue c)) = true ->
  SyncAccount w (handleNotification w c req sched).
Proof.
  intros Hs Hl. unfold handleNotification.
  enough (H : SyncInv w (run w sched (enter c req)) /\
              SyncAccount w (run w sched (enter c req))) by apply H.
  apply (run_invariant w (fun st => SyncInv w st /\ SyncAccount w st)).
  - intros st e (I1 & I2). split; [|apply SyncAccount_step; assumption].
    destruct e as [|k|]; simpl.
    + apply SyncInv_coord; exact I1.
    + apply SyncInv_work; exact I1.
    + apply SyncInv_watcher; exact I1.
  - split.
    + unfold SyncInv, enter. simpl. auto.
    + unfold SyncAccount, position. cbn. auto.
Qed.

Lemma lives_zero (ts : list Task) :
  lives ts = 0 -> Forall (fun t => live t = 0) ts.
Proof.
  induction ts as [|t ts IH]; intros H; constructor.
  - pose proof (live_range t). pose proof (lives_nonneg ts).
    unfold lives in *. simpl in H. lia.
  - apply IH. pose proof (live_range t). pose proof (lives_nonneg ts).
    unfold lives in *. simpl in H. lia.
Qed.

Lemma rejected_zero (w : World) (n k : nat) :
  rejected w n = 0 -> (k < n)%nat -> submit w k = None.
Proof.
  induction n as [|n IH]; intros H Hk; [lia|].
  simpl in H. pose proof (rejected_nonneg w n).
  destruct (submit w n) eqn:E; [lia|].
  destruct (decide (k = n)) as [->|Hne]; [exact E|].
  apply IH; lia.
Qed.

Lemma AsyncQuiet_step (w : World) (st : State) (e : Event) :
  AsyncInv w st -> AsyncQuiet st -> AsyncQuiet (step w st e).
Proof.
  intros Inv (Ht & Hsp & H). destruct e as [|k|]; simpl.
  - unfold coord_step. unfold AsyncInv in Inv.
    destruct (pc st) as [r|i| |cnt l|] eqn:Epc.
    + unfold AsyncQuiet. cbn. rewrite Ht, Hsp, H. auto.
    + destruct Inv as (Hs & _ & Hw & _ & Hi). destruct H as (Hl & Hq).
      destruct (newNotification st !! i) as [n|] eqn:En.
      * unfold coord_iteration, register_unit. rewrite Hs. cbv beta iota.
        rewrite Hs, andb_false_r. unfold submit_notification.
        destruct (submit w i) as [err|].
        -- cbv zeta. cbn [wg with_logs]. rewrite Hw.
           change (wg_Done 0) with (@None Z). cbv beta iota.
           unfold AsyncQuiet. cbn. auto.
        -- cbn [pc with_queued]. rewrite Epc. unfold AsyncQuiet, add_count. cbn.
           rewrite (take_S_r _ _ _ En), Hq. auto.
      * apply lookup_ge_None in En. rewrite Hs. unfold AsyncQuiet. cbn.
        rewrite Hq, take_ge by lia. auto.
    + destruct Inv.
    + unfold AsyncQuiet. rewrite Epc. auto.
    + unfold AsyncQuiet. rewrite Epc. auto.
  - assert (E : work_step w st k = st).
    { unfold work_step. rewrite Ht. reflexivity. }
    rewrite E. unfold AsyncQuiet. auto.
  - destruct (watcher_step_frame st) as (F1 & _ & F3 & _ & _ & F6 & F7 & F8 & F9 & _).
    unfold AsyncQuiet. rewrite F1, F3, F6, F7, F8, F9. auto.
Qed.

(** ** The reclaimers started *)

Lemma reclaimed_total_app (ts1 ts2 : list Task) :
  reclaimed_total (ts1 ++ ts2) = (reclaimed_total ts1 + reclaimed_total ts2)%nat.
Proof.
  unfold reclaimed_total. induction ts1 as [|t ts1 IH]; simpl; [reflexivity|].
  rewrite IH. lia.
Qed.

Lemma reclaimed_total_insert (ts : list Task) (k : nat) (t t' : Task) :
  ts !! k = Some t ->
  (reclaimed_total (<[k := t']> ts) + reclaimed t
   = reclaimed_total ts + reclaimed t')%nat.
Proof.
  revert k. induction ts as [|t0 ts IH]; intros k H; [discriminate|].
  destruct k as [|k]; simpl in *.
  - injection H as ->. unfold reclaimed_total. simpl. lia.
  - specialize (IH k H). unfold reclaimed_total in *. simpl. lia.
Qed.

Lemma coord_iteration_tasks (w : World) (st : State) (i : nat) (n : PushNotification) :
  tasks (coord_iteration w st i n) = tasks st \/
  tasks (coord_iteration w st i n) = tasks st ++ [mkTask n (send w i) Queued].
Proof.
  unfold coord_iteration.
  destruct (register_unit st) as [st1|] eqn:E1; [|left; reflexivity].
  apply register_unit_frame in E1.
  destruct E1 as (_ & _ & _ & _ & _ & R6 & _).
  assert (T : forall st2 : State,
             tasks match pc st2 with
                   | Panicked => st2
                   | _ => add_count st2 i n
                   end = tasks st2).
  { intros st2. destruct (pc st2); reflexivity. }
  rewrite T.
  destruct (IsLocalQueue w (Engine (Queue (cfg st1))) && Sync (Core (cfg st1))).
  - unfold submit_closure. destruct (submit w i); cbn; rewrite R6; auto.
  - destruct (submit_notification_frame w st1 i n) as (_ & _ & _ & _ & S5 & _).
    rewrite S5, R6. auto.
Qed.

(** A move of a closure, as to the reclaimers it starts. *)
Lemma work_step_spawn (w : World) (st : State) (k : nat) :
  work_step w st k = st \/
  exists t p,
    tasks st !! k = Some t /\ p <> Queued /\
    tasks (work_step w st k) = <[k := set_phase t p]> (tasks st) /\
    ((phase t <> Queued /\ spawned (work_step w st k) = spawned st) \/
     (phase t = Queued /\
      spawned (work_step w st k)
      = spawned st ++
        (if unregistered (outcome t)
         then map (fun token => (token, cleanerApiUrl w)) (Tokens (msg t))
         else []))).
Proof.
  unfold work_step. destruct (tasks st !! k) as [t|] eqn:Ek; [|auto].
  unfold task_step. destruct (phase t) as [|old respLogs|ret|ret|] eqn:Ep; auto.
  - destruct (outcome t) as [respLogs [err|]|] eqn:Eo; auto.
    + destruct (strings_Contains err "Unregistered") eqn:Ec.
      * right. exists t, (Appending (logs st) respLogs).
        repeat split; auto; try discriminate. right. split; [exact Ep|].
        rewrite Eo. cbn. rewrite Ec. apply spawn_reclaims_map.
      * right. exists t, (Returning (Some err)).
        repeat split; auto; try discriminate. right. split; [exact Ep|].
        rewrite Eo. cbn. rewrite Ec, app_nil_r. reflexivity.
    + right. exists t, (Appending (logs st) respLogs).
      repeat split; auto; try discriminate. right. split; [exact Ep|].
      rewrite Eo. cbn. rewrite app_nil_r. reflexivity.
  - right. exists t, (Returning None).
    repeat split; auto; try discriminate. left. split; [congruence|reflexivity].
  - right. destruct (wg_Done (wg st)).
    + exists t, (Finished ret). repeat split; auto; try discriminate.
      left. split; [congruence|reflexivity].
    + exists t, Crashed. repeat split; auto; try discriminate.
      left. split; [congruence|reflexivity].
Qed.

Lemma SpawnInv_step (w : World) (st : State) (e : Event) :
  SpawnInv w st -> SpawnInv w (step w st e).
Proof.
  intros (Hlen & Hin). destruct e as [|k|]; simpl.
  - unfold coord_step. destruct (pc st) as [r|i| |cnt l|] eqn:Epc.
    + split; assumption.
    + destruct (newNotification st !! i) as [n|].
      * destruct (coord_iteration_frame w st i n) as (_ & _ & F & _).
        unfold SpawnInv. rewrite F.
        destruct (coord_iteration_tasks w st i n) as [->| ->]; [split; assumption|].
        split.
        -- rewrite reclaimed_total_app, Hlen. unfold reclaimed_total. simpl. lia.
        -- intros token url H. destruct (Hin token url H) as (Hu & j & t & Hj & Ht).
           split; [exact Hu|]. exists j, t. split; [|exact Ht].
           apply lookup_app_l_Some. exact Hj.
      * destruct (Sync (Core (cfg st))); split; assumption.
    + destruct (wg st =? 0); split; assumption.
    + split; assumption.
    + split; assumption.
  - destruct (work_step_spawn w st k) as [->|(t & p & Hk & Hp & Ht & Hs)];
      [split; assumption|].
    pose proof (lookup_lt_Some _ _ _ Hk) as Hlt.
    pose proof (reclaimed_total_insert (tasks st) k t (set_phase t p) Hk) as Hr.
    assert (Keep : forall token url,
               (url = cleanerApiUrl w /\
                exists j t0, tasks st !! j = Some t0 /\ In token (Tokens (msg t0)) /\
                             unregistered (outcome t0) = true) ->
               url = cleanerApiUrl w /\
               exists j t0, <[k := set_phase t p]> (tasks st) !! j = Some t0 /\
                            In token (Tokens (msg t0)) /\
                            unregistered (outcome t0) = true).
    { intros token url (Hu & j & t0 & Hj & Hi & Ho). split; [exact Hu|].
      destruct (decide (k = j)) as [<-|Hne].
      - exists k, (set_phase t p). rewrite list_lookup_insert_eq by exact Hlt.
        assert (t0 = t) by congruence. subst t0. auto.
      - exists j, t0. rewrite list_lookup_insert_ne by exact Hne. auto. }
    unfold SpawnInv. rewrite Ht.
    destruct Hs as [(Hq & ->)|(Hq & ->)].
    + split.
      * assert (reclaimed (set_phase t p) = reclaimed t); [|lia].
        unfold reclaimed. cbn. destruct (phase t); [congruence| | | |];
          destruct p; try congruence; reflexivity.
      * intros token url H. apply Keep. apply Hin. exact H.
    + assert (R0 : reclaimed t = 0%nat) by (unfold reclaimed; now rewrite Hq).
      assert (R1 : reclaimed (set_phase t p)
                   = if unregistered (outcome t) then length (Tokens (msg t)) else 0%nat).
      { unfold reclaimed. cbn. destruct p; try congruence; reflexivity. }
      split.
      * rewrite length_app, Hlen.
        destruct (unregistered (outcome t)); rewrite ?length_map; cbn [length]; lia.
      * intros token url H. apply in_app_or in H. destruct H as [H|H].
        -- apply Keep. apply Hin. exact H.
        -- destruct (unregistered (outcome t)) eqn:Eu; [|destruct H].
           apply in_map_iff in H. destruct H as (tok & E & Hi).
           injection E as <- <-. split; [reflexivity|].
           exists k, (set_phase t p). rewrite list_lookup_insert_eq by exact Hlt. auto.
  - destruct (watcher_step_frame st) as (_ & _ & _ & _ & _ & _ & F7 & _ & F9 & _).
    unfold SpawnInv. rewrite F7, F9. split; assumption.
Qed.

(** ** [strings.Contains] *)

Lemma prefix_app (a b : string) :
  String.prefix a b = true <-> exists post, b = (a ++ post)%string.
Proof.
  revert b. induction a as [|x a IH]; intros b; simpl.
  - destruct b; (split; [intros _; eexists; reflexivity|reflexivity]).
  - destruct b as [|y b]; simpl.
    + split; [discriminate|intros (post & H); discriminate].
    + destruct (Ascii.ascii_dec x y) as [->|Hne].
      * rewrite IH. split; intros (post & H); exists post; congruence.
      * split; [discriminate|]. intros (post & H). congruence.
Qed.

Lemma Contains_nil (substr : string) :
  strings_Contains "" substr = String.prefix substr "" || false.
Proof. reflexivity. Qed.

Lemma Contains_cons (x : Ascii.ascii) (s substr : string) :
  strings_Contains (String x s) substr
  = String.prefix substr (String x s) || strings_Contains s substr.
Proof. reflexivity. Qed.

(** ** Completions in any order *)

(** The state of a synchronous call once the coordinator waits, the queue
    having accepted every closure. *)
Lemma sync_after_loop (w : World) (c : ConfYaml) (req : RequestPush) :
  Sync (Core c) = true ->
  IsLocalQueue w (Engine (Queue c)) = true ->
  (forall k, submit w k = None) ->
  let n := length (filter_platforms c req) in
  let st := handleNotification w c req (repeat Coord (n + 2)) in
  SyncInv w st /\ pc st = Waiting /\ logs st = [] /\
  Forall (fun t => phase t = Queued) (tasks st) /\
  map outcome (tasks st) = map (send w) (seq 0 n).
Proof.
  intros Hs Hl Hsub n st3.
  assert (Hd : downgrade w c = c).
  { unfold downgrade. rewrite Hs, Hl. reflexivity. }
  assert (Inv3 : SyncInv w st3) by (apply SyncInv_run; assumption).
  set (st1 := coord_entry w (enter c req) req).
  pose proof (sync_loop w n st1 0 eq_refl) as L.
  cbn [st1 coord_entry cfg newNotification enter wg tasks] in L.
  rewrite Hd in L.
  specialize (L Hs Hl ltac:(lia) ltac:(fold n; lia) Hsub ltac:(constructor)).
  cbv zeta in L. fold st1 in L. destruct L as (L1 & L2 & L3 & L4 & L5 & L6).
  set (st2 := run w (repeat Coord n) st1) in *.
  assert (E3 : st3 = with_pc st2 Waiting).
  { subst st3. unfold handleNotification.
    replace (n + 2)%nat with (1 + (n + 1))%nat by lia.
    rewrite !repeat_app, !run_app. cbn [repeat run fold_left step].
    change (coord_step w (enter c req)) with st1. fold (run w (repeat Coord n) st1).
    fold st2. unfold coord_step. rewrite L1. simpl. rewrite L3.
    rewrite (proj2 (lookup_ge_None _ _)) by (fold n; lia).
    rewrite L2, Hs. reflexivity. }
  change (map outcome (tasks st1)) with (@nil (@SendResult LogPushEntry)) in L6.
  rewrite app_nil_l in L6.
  split; [exact Inv3|]. rewrite E3. cbn. auto.
Qed.

Lemma finish_order_finishes (w : World) (ks : list nat) :
  forall st : State,
    SyncInv w st ->
    List.NoDup ks ->
    (forall k, In k ks ->
       exists t, tasks st !! k = Some t /\ phase t = Queued /\
                 outcome t <> SendNeverReturns) ->
    let st' := run w (finish_order ks) st in
    SyncInv w st' /\ pc st' = pc st /\
    newNotification st' = newNotification st /\
    lives (tasks st') = lives (tasks st) - Z.of_nat (length ks) /\
    logs st' = logs st ++ concat (map (fun k => match tasks st !! k with
                                                | Some t => appended (outcome t)
                                                | None => []
                                                end) ks).
Proof.
  induction ks as [|k0 ks IH]; intros st Inv Hnd Hq; cbv zeta.
  - simpl. rewrite app_nil_r.
    split; [exact Inv|]. split; [reflexivity|]. split; [reflexivity|].
    split; [lia|reflexivity].
  - destruct (Hq k0 ltac:(left; reflexivity)) as (t & Hk & Hp & Ho).
    assert (Hlive : live t = 1) by (unfold live; now rewrite Hp).
    pose proof (sync_live_task_wg w st k0 t Inv Hk Hlive) as Hw.
    destruct (closure_finishes w st k0 t Hk Hp Ho Hw) as ((ret & Ht) & Hpc & Hn & Hlog).
    set (st1 := run w [Work k0; Work k0; Work k0] st) in *.
    assert (Inv1 : SyncInv w st1) by (apply SyncInv_from; exact Inv).
    change (finish_order (k0 :: ks))
      with ([Work k0; Work k0; Work k0] ++ finish_order ks).
    rewrite run_app. fold st1.
    apply List.NoDup_cons_iff in Hnd. destruct Hnd as (Hnotin & Hnd').
    assert (Same : forall k, In k ks -> tasks st1 !! k = tasks st !! k).
    { intros k Hin. rewrite Ht. apply list_lookup_insert_ne.
      intros ->. exact (Hnotin Hin). }
    specialize (IH st1 Inv1 Hnd').
    assert (Hq1 : forall k, In k ks ->
              exists t', tasks st1 !! k = Some t' /\ phase t' = Queued /\
                         outcome t' <> SendNeverReturns).
    { intros k Hin. rewrite (Same k Hin). apply Hq. right. exact Hin. }
    destruct (IH Hq1) as (J1 & J2 & J3 & J4 & J5).
    split; [exact J1|]. split; [congruence|]. split; [congruence|]. split.
    + rewrite J4, Ht, (lives_insert _ _ _ _ Hk), Hlive. unfold live. cbn [length]. cbn. lia.
    + rewrite J5, Hlog. cbn [map concat]. rewrite Hk, <- app_assoc. do 3 f_equal.
      apply map_ext_in. intros k Hin. now rewrite (Same k Hin).
Qed.

(** ** Where the closures come from *)

Lemma coord_iteration_new_task (w : World) (st : State) (i : nat) (n : PushNotification) :
  tasks (coord_iteration w st i n) = tasks st \/
  (submit w i = None /\
   tasks (coord_iteration w st i n) = tasks st ++ [mkTask n (send w i) Queued]).
Proof.
  unfold coord_iteration.
  destruct (register_unit st) as [st1|] eqn:E1; [|left; reflexivity].
  apply register_unit_frame in E1.
  destruct E1 as (_ & _ & _ & _ & _ & R6 & _).
  assert (T : forall st2 : State,
             tasks match pc st2 with
                   | Panicked => st2
                   | _ => add_count st2 i n
                   end = tasks st2).
  { intros st2. destruct (pc st2); reflexivity. }
  rewrite T.
  destruct (IsLocalQueue w (Engine (Queue (cfg st1))) && Sync (Core (cfg st1))).
  - unfold submit_closure. destruct (submit w i); cbn; rewrite R6; auto.
  - destruct (submit_notification_frame w st1 i n) as (_ & _ & _ & _ & S5 & _).
    rewrite S5, R6. auto.
Qed.

Lemma TaskOrigin_step (w : World) (st : State) (e : Event) :
  (position st <= length (newNotification st))%nat ->
  (forall r, pc st = Entry r -> tasks st = []) ->
  TaskOrigin w st -> TaskOrigin w (step w st e).
Proof.
  intros Hpos Hentry H. destruct e as [|k|]; simpl.
  - unfold coord_step. destruct (pc st) as [r|i| |cnt l|] eqn:Epc.
    + intros j t Hj. cbn in Hj. rewrite (Hentry r eq_refl) in Hj. discriminate.
    + unfold position in Hpos. rewrite Epc in Hpos.
      assert (Hold : forall j t, tasks st !! j = Some t ->
                exists k n, (k < i)%nat /\ newNotification st !! k = Some n /\
                            submit w k = None /\ msg t = n /\ outcome t = send w k).
      { intros j t Hj. destruct (H j t Hj) as (k & n & Hk & Hrest).
        unfold position in Hk. rewrite Epc in Hk. eauto. }
      destruct (newNotification st !! i) as [n|] eqn:En.
      * pose proof (lookup_lt_Some _ _ _ En) as Hlt.
        destruct (coord_iteration_frame w st i n) as (_ & F2 & _).
        assert (Hp' : (S i <= position (coord_iteration w st i n))%nat).
        { unfold position. rewrite F2.
          destruct (coord_iteration_pc w st i n) as [[P _]|P]; rewrite P; lia. }
        intros j t Hj. rewrite F2.
        destruct (coord_iteration_new_task w st i n) as [E|(Hsub & E)]; rewrite E in Hj.
        -- destruct (Hold j t Hj) as (k & m & Hk & Hrest). exists k, m. split; [lia|exact Hrest].
        -- apply lookup_app_Some in Hj. destruct Hj as [Hj|(_ & Hj)].
           ++ destruct (Hold j t Hj) as (k & m & Hk & Hrest).
              exists k, m. split; [lia|exact Hrest].
           ++ destruct (j - length (tasks st))%nat; [|destruct n0; discriminate].
              injection Hj as <-. exists i, n. cbn. repeat split; auto; lia.
      * apply lookup_ge_None in En.
        assert (Hsame : forall st' : State,
                  tasks st' = tasks st -> newNotification st' = newNotification st ->
                  position st' = length (newNotification st) -> TaskOrigin w st').
        { intros st' E1 E2 E3 j t Hj. rewrite E1 in Hj.
          destruct (Hold j t Hj) as (k & m & Hk & Hrest).
          exists k, m. rewrite E2, E3. split; [lia|exact Hrest]. }
        destruct (Sync (Core (cfg st))); apply Hsame; reflexivity.
    + assert (Hsame : forall st' : State,
                tasks st' = tasks st -> newNotification st' = newNotification st ->
                position st' = position st -> TaskOrigin w st').
      { intros st' E1 E2 E3 j t Hj. rewrite E1 in Hj.
        destruct (H j t Hj) as (k & m & Hk & Hrest).
        exists k, m. rewrite E2, E3. split; [lia|exact Hrest]. }
      destruct (wg st =? 0); apply Hsame; try reflexivity.
      unfold position. cbn. now rewrite Epc.
    + exact H.
    + exact H.
  - destruct (work_step_frame w st k) as (F1 & _ & F3 & _).
    assert (P : position (work_step w st k) = position st).
    { unfold position. now rewrite F1, F3. }
    intros j t Hj. rewrite P, F3.
    destruct (work_step_phase w st k) as [E|(t0 & p & Hk & _ & Ht & _)].
    + rewrite E in Hj. exact (H j t Hj).
    + rewrite Ht in Hj. destruct (decide (k = j)) as [<-|Hne].
      * rewrite list_lookup_insert_eq in Hj by (eapply lookup_lt_Some; eauto).
        injection Hj as <-. exact (H k t0 Hk).
      * rewrite list_lookup_insert_ne in Hj by exact Hne. exact (H j t Hj).
  - destruct (watcher_step_frame st) as (F1 & _ & F3 & _ & _ & _ & F7 & _).
    assert (P : position (watcher_step st) = position st).
    { unfold position. now rewrite F1, F3. }
    intros j t Hj. rewrite P, F3. rewrite F7 in Hj. exact (H j t Hj).
Qed.

Lemma entry_has_no_task (w : World) (st : State) (e : Event) :
  (forall r, pc st = Entry r -> tasks st = []) ->
  forall r, pc (step w st e) = Entry r -> tasks (step w st e) = [].
Proof.
  intros H r. destruct e as [|k|]; simpl.
  - unfold coord_step. destruct (pc st) as [r0|i| |cnt l|] eqn:Epc.
    + discriminate.
    + destruct (newNotification st !! i) as [n|].
      * destruct (coord_iteration_pc w st i n) as [[P _]|P]; rewrite P; discriminate.
      * destruct (Sync (Core (cfg st))); discriminate.
    + destruct (wg st =? 0); cbn; rewrite ?Epc; discriminate.
    + rewrite Epc. discriminate.
    + rewrite Epc. discriminate.
  - destruct (work_step_frame w st k) as (F1 & _). rewrite F1. intros Hpc.
    assert (E : work_step w st k = st).
    { unfold work_step. rewrite (H r Hpc). reflexivity. }
    rewrite E. exact (H r Hpc).
  - destruct (watcher_step_frame st) as (F1 & _ & _ & _ & _ & _ & F7 & _).
    rewrite F1, F7. apply H.
Qed.

(** ** The statements of the specification *)

(** C1. In synchronous mode a submission that [q.QueueTask] rejects leaves
    the unit registered for it with the barrier unreleased: once the
    coordinator waits, the counter exceeds the number of closures still to
    run [wg.Done()] by at least one, and [handleNotification] never
    returns, under any schedule. *)
Theorem C1_rejected_submission_never_released (w : World) (c : ConfYaml)
    (req : RequestPush) (sched : list Event) (k : nat) (n : PushNotification)
    (err : string) :
  Sync (Core c) = true ->
  IsLocalQueue w (Engine (Queue c)) = true ->
  filter_platforms c req !! k = Some n ->
  submit w k = Some err ->
  let st := handleNotification w c req sched in
  (pc st = Waiting -> 1 <= wg st - lives (tasks st)) /\
  (forall cnt l, pc st <> Returned cnt l).
Proof.
  intros Hs Hl Hk Hsub st.
  pose proof (SyncInv_run w c req sched Hs Hl) as (_ & _ & H). fold st in H.
  pose proof (Common_run w c req sched) as HC. fold st in HC. unfold Common in HC.
  apply lookup_lt_Some in Hk. rewrite <- (filter_platforms_downgrade w) in Hk.
  split.
  - intros Hpc. rewrite Hpc in H, HC. unfold position in H. rewrite Hpc in H.
    destruct H as (_ & Hwg & _). destruct HC as (_ & Hn & _). rewrite Hn in Hwg.
    pose proof (rejected_pos w k _ err Hk Hsub). lia.
  - intros cnt l Hpc. rewrite Hpc in H, HC. unfold position in H. rewrite Hpc in H.
    destruct H as (_ & Hwg & _ & _ & Hz). destruct HC as (_ & Hn & _). rewrite Hn in Hwg.
    pose proof (rejected_pos w k _ err Hk Hsub). pose proof (lives_nonneg (tasks st)). lia.
Qed.

(** C2, as the code has it.  When effective sync mode is off and [q.Queue]
    rejects the notification at position [i], the iteration appends to
    [logs] exactly one entry per token of that notification, in token
    order and none for the topic, each made by [logx.GetLogPushEntry] from
    an input with status [FailedPush], that token and the error
    "max capacity reached"; no closure is created and nothing is enqueued
    for the notification, so no send is attempted for it. *)
Theorem C2_rejection_logs_one_entry_per_token (w : World) (st : State) (i : nat)
    (n : PushNotification) (err : string) :
  pc st = Looping i ->
  Sync (Core (cfg st)) = false ->
  newNotification st !! i = Some n ->
  submit w i = Some err ->
  let st' := coord_step w st in
  let resp := markFailedNotification w (cfg st) n "max capacity reached" in
  logs st' = logs st ++ resp /\
  length resp = length (Tokens n) /\
  (forall j token, Tokens n !! j = Some token ->
     resp !! j = Some (GetLogPushEntry w
                         {| InputID := ID n;
                            InputStatus := FailedPush;
                            InputToken := token;
                            InputMessage := Message n;
                            InputPlatform := Platform n;
                            InputError := Some "max capacity reached";
                            InputHideToken := HideToken (Log (cfg st));
                            InputFormat := Format (Log (cfg st)) |})) /\
  tasks st' = tasks st /\
  queued st' = queued st.
Proof.
  intros Hpc Hs Hn Hsub st' resp.
  assert (E : logs st' = logs st ++ resp /\ tasks st' = tasks st /\ queued st' = queued st).
  { subst st'. unfold coord_step. rewrite Hpc, Hn.
    unfold coord_iteration, register_unit. rewrite Hs. cbv beta iota.
    rewrite Hs, andb_false_r. unfold submit_notification. rewrite Hsub. cbv zeta.
    fold resp. cbn [wg with_logs].
    destruct (wg_Done (wg st)) as [v|]; cbn [pc with_wg with_logs with_pc].
    - rewrite Hpc. unfold add_count. cbn. auto.
    - cbn. auto. }
  destruct E as (E1 & E2 & E3). repeat split; auto.
  - subst resp. rewrite markFailedNotification_map. apply length_map.
  - intros j token Hj. subst resp. rewrite markFailedNotification_map.
    rewrite list_lookup_fmap, Hj. reflexivity.
Qed.

(** C3. In synchronous mode, when the send of an accepted notification
    never returns, a disconnect cancels the context made by [pushHandler]
    and nothing more: [handleNotification] never returns, under any
    schedule in which the watcher has run. *)
Theorem C3_disconnect_does_not_release_wait (w : World) (c : ConfYaml)
    (req : RequestPush) (sched : list Event) (k : nat) (n : PushNotification) :
  Sync (Core c) = true ->
  IsLocalQueue w (Engine (Queue c)) = true ->
  filter_platforms c req !! k = Some n ->
  submit w k = None ->
  send w k = SendNeverReturns ->
  In Disconnect sched ->
  let st := handleNotification w c req sched in
  ctxCancelled st = true /\ (forall cnt l, pc st <> Returned cnt l).
Proof.
  intros Hs Hl Hk Hsub Hsend Hin st. split.
  - destruct (in_split _ _ Hin) as (s1 & s2 & E). subst st. rewrite E.
    unfold handleNotification. rewrite run_app. simpl.
    apply ctxCancelled_stays.
    pose proof (SyncInv_run w c req s1 Hs Hl) as (Hs1 & _).
    unfold handleNotification in Hs1. unfold watcher_step. rewrite Hs1. reflexivity.
  - intros cnt l Hpc.
    pose proof (SyncInv_run w c req sched Hs Hl) as (_ & _ & H). fold st in H.
    pose proof (Common_run w c req sched) as HC. fold st in HC. unfold Common in HC.
    rewrite Hpc in H, HC. unfold position in H. rewrite Hpc in H.
    destruct H as (_ & Hwg & Hst & Hpr & Hz). destruct HC as (_ & Hn & _).
    apply lookup_lt_Some in Hk. rewrite <- (filter_platforms_downgrade w), <- Hn in Hk.
    destruct (Hpr k Hk Hsub Hsend) as (j & t & Hj & Ho).
    pose proof (Forall_lookup_1 _ _ _ _ Hst Hj Ho) as Hph.
    pose proof (lives_lookup _ _ _ Hj) as Hlive. unfold live in Hlive. rewrite Hph in Hlive.
    pose proof (rejected_nonneg w (length (newNotification st))). lia.
Qed.

(** C4, as the code has it.  In a call in synchronous mode, a closure whose
    send returns an error without "Unregistered" in its text returns that
    error: run on its own it leaves [logs] as it was, so the logs the send
    produced are not appended, it starts no reclaimer, and its deferred
    [wg.Done()] lowers the counter by one.  The other closures and the
    coordinator are where they were. *)
Theorem C4_generic_error_releases_without_logs (w : World) (c : ConfYaml)
    (req : RequestPush) (sched : list Event) (k : nat) (t : Task)
    (respLogs : list LogPushEntry) (err : string) :
  Sync (Core c) = true ->
  IsLocalQueue w (Engine (Queue c)) = true ->
  let st := handleNotification w c req sched in
  tasks st !! k = Some t ->
  phase t = Queued ->
  outcome t = SendReturns respLogs (Some err) ->
  strings_Contains err "Unregistered" = false ->
  let st' := run w [Work k; Work k] st in
  tasks st' !! k = Some (set_phase t (Finished (Some err))) /\
  logs st' = logs st /\
  wg st' = wg st - 1 /\
  spawned st' = spawned st /\
  (forall j, j <> k -> tasks st' !! j = tasks st !! j) /\
  pc st' = pc st /\ count st' = count st.
Proof.
  intros Hs Hl st Hk Hp Ho Hc st'.
  pose proof (SyncInv_run w c req sched Hs Hl) as Inv. fold st in Inv.
  assert (Hw : 1 <= wg st).
  { apply (sync_live_task_wg w st k t Inv Hk). unfold live. now rewrite Hp. }
  subst st'. rewrite (closure_generic_error w st k t respLogs err Hk Hp Ho Hc Hw). cbn.
  pose proof (lookup_lt_Some _ _ _ Hk) as Hlt.
  repeat split; auto.
  - now apply list_lookup_insert_eq.
  - intros j Hj. now rewrite list_lookup_insert_ne by auto.
Qed.

(** The end-to-end scenario of the specification: two iOS notifications
    with tokens [a; b] and [c], local engine, sync set, every send
    succeeding with one entry per token. *)
Example end_to_end_sync :
  pc (handleNotification (example_world accept_all succeed_all)
        (example_cfg true "local") example_req (sequential_schedule 2))
  = Returned 3 [success_entry "a"; success_entry "b"; success_entry "c"].
Proof. vm_compute. reflexivity. Qed.

(** C5. With two workers, both closures of a synchronous call can read
    [logs] before either assigns it: both sends succeeded, with three
    entries between them, both closures finished, and the logs
    [handleNotification] returns hold the entry for token "c" alone, those
    for "a" and "b" being lost. *)
Theorem C5_parallel_appends_lose_an_entry :
  let w := example_world accept_all succeed_all in
  let st := handleNotification w (example_cfg true "local") example_req
              (repeat Coord 5 ++
               [Work 0; Work 1; Work 0; Work 1; Work 0; Work 1; Coord]) in
  send w 0 = SendReturns [success_entry "a"; success_entry "b"] None /\
  send w 1 = SendReturns [success_entry "c"] None /\
  map phase (tasks st) = [Finished None; Finished None] /\
  pc st = Returned 3 [success_entry "c"].
Proof. vm_compute. repeat split; reflexivity. Qed.


(** C7. The sync flag the rest of [handleNotification] reads is the
    conjunction of the configured flag and the engine being local, and the
    coordinator waits on the barrier only when that conjunction holds.  With
    sync configured and a non-local engine it never waits, and when the
    queue accepts every notification it returns after its own moves alone,
    with every notification handed to [q.Queue] and no closure created. *)
Theorem C7_sync_needs_local_engine (w : World) (c : ConfYaml) (req : RequestPush) :
  Sync (Core (downgrade w c)) = Sync (Core c) && IsLocalQueue w (Engine (Queue c)) /\
  (forall sched, pc (handleNotification w c req sched) = Waiting ->
     Sync (Core c) && IsLocalQueue w (Engine (Queue c)) = true) /\
  (Sync (Core c) = true ->
   IsLocalQueue w (Engine (Queue c)) = false ->
   (forall sched, pc (handleNotification w c req sched) <> Waiting) /\
   ((forall k, (k < length (filter_platforms c req))%nat -> submit w k = None) ->
    let st := handleNotification w c req
                (repeat Coord (length (filter_platforms c req) + 2)) in
    pc st = Returned (int_wrap (expected_count c req)) [] /\
    tasks st = [] /\ queued st = filter_platforms c req)).
Proof.
  split; [apply downgrade_Sync|]. split; [intros sched; apply never_waits_async|].
  intros Hs Hl. split.
  - intros sched Hpc. apply never_waits_async in Hpc. rewrite Hs, Hl in Hpc. discriminate.
  - intros Hsub.
    assert (Hd : Sync (Core (downgrade w c)) = false).
    { rewrite downgrade_Sync, Hs, Hl. reflexivity. }
    destruct (async_returns w c req Hd Hsub) as (R1 & R2 & R3 & _). auto.
Qed.

(** C8. In a call in synchronous mode, a closure whose send returns an
    error with "Unregistered" in its text does not return that error: run
    on its own it starts one [deleteUnregisteredToken] goroutine per token
    of its notification, with the cleaner URL, appends the logs the send
    produced to [logs], returns nil, and its deferred [wg.Done()] lowers
    the counter by one.  It finishes by its own three moves, whatever
    becomes of the goroutines it started. *)
Theorem C8_unregistered_is_soft (w : World) (c : ConfYaml)
    (req : RequestPush) (sched : list Event) (k : nat) (t : Task)
    (respLogs : list LogPushEntry) (err : string) :
  Sync (Core c) = true ->
  IsLocalQueue w (Engine (Queue c)) = true ->
  let st := handleNotification w c req sched in
  tasks st !! k = Some t ->
  phase t = Queued ->
  outcome t = SendReturns respLogs (Some err) ->
  strings_Contains err "Unregistered" = true ->
  let st' := run w [Work k; Work k; Work k] st in
  tasks st' !! k = Some (set_phase t (Finished None)) /\
  logs st' = logs st ++ respLogs /\
  wg st' = wg st - 1 /\
  spawned st' = spawned st ++ map (fun token => (token, cleanerApiUrl w)) (Tokens (msg t)) /\
  (forall j, j <> k -> tasks st' !! j = tasks st !! j) /\
  pc st' = pc st /\ count st' = count st.
Proof.
  intros Hs Hl st Hk Hp Ho Hc st'.
  pose proof (SyncInv_run w c req sched Hs Hl) as Inv. fold st in Inv.
  assert (Hw : 1 <= wg st).
  { apply (sync_live_task_wg w st k t Inv Hk). unfold live. now rewrite Hp. }
  subst st'. rewrite (closure_appends w st k t respLogs (Some err) Hk Hp Ho Hc Hw). cbn.
  pose proof (lookup_lt_Some _ _ _ Hk) as Hlt.
  repeat split; auto.
  - now apply list_lookup_insert_eq.
  - apply spawn_reclaims_map.
  - intros j Hj. now rewrite list_lookup_insert_ne by auto.
Qed.

(** The reclaimer on a network that fails, then answers 503, then 200. *)
Example reclaim_flaky :
  deleteUnregisteredToken flaky_network "tok" "http://cleaner"
  = [Request "DELETE" "http://cleaner/tok";
     LogErrorf "Error sending DELETE request"; Sleep 2;
     Request "DELETE" "http://cleaner/tok"; Sleep 2;
     Request "DELETE" "http://cleaner/tok"].
Proof. reflexivity. Qed.


(** C10. With sync configured and a non-local engine, once
    [handleNotification] has run its first statements the shared
    configuration object has [Core.Sync] false and every other field as
    before, in every later state of the call, returned or not; a later call
    on the same object finds the flag false, leaves the object as it is and
    does not wait. *)
Theorem C10_downgrade_written_to_shared_config (w : World) (c : ConfYaml)
    (req : RequestPush) (sched : list Event) :
  Sync (Core c) = true ->
  IsLocalQueue w (Engine (Queue c)) = false ->
  let st := handleNotification w c req sched in
  (forall r, pc st <> Entry r) ->
  cfg st = set_Sync c false /\
  Sync (Core (cfg st)) = false /\
  MaxNotification (Core (cfg st)) = MaxNotification (Core c) /\
  Queue (cfg st) = Queue c /\
  Ios (cfg st) = Ios c /\
  Android (cfg st) = Android c /\
  Huawei (cfg st) = Huawei c /\
  Log (cfg st) = Log c /\
  (forall (w2 : World) (req2 : RequestPush) (sched2 : list Event),
     let st2 := handleNotification w2 (cfg st) req2 sched2 in
     cfg st2 = cfg st /\ pc st2 <> Waiting).
Proof.
  intros Hs Hl st Hpc.
  assert (E : cfg st = set_Sync c false).
  { destruct (cfg_reached w c req sched) as [(r & Hr & _)|(_ & Hc)].
    - destruct (Hpc r Hr).
    - fold st in Hc. rewrite Hc. unfold downgrade. rewrite Hs, Hl. reflexivity. }
  rewrite E. repeat split; try reflexivity.
  - destruct (cfg_reached w2 (set_Sync c false) req2 sched2) as [(r & _ & Hc)|(_ & Hc)].
    + exact Hc.
    + rewrite Hc. reflexivity.
  - intros Hw. apply never_waits_async in Hw. discriminate.
Qed.

(** ** Further statements about the code *)

(** X1. The first loop of [handleNotification] keeps, in the order of the
    request, exactly the notifications that are not on a disabled platform;
    a notification whose platform is none of the three known ones is
    kept. *)
Theorem X1_filter_keeps_enabled_in_order (c : ConfYaml) (req : RequestPush) :
  filter_platforms c req
  = List.filter (fun n => negb (platform_disabled c n)) (Notifications req) /\
  (length (filter_platforms c req) <= length (Notifications req))%nat /\
  (forall n, In n (filter_platforms c req) <->
             In n (Notifications req) /\ platform_disabled c n = false) /\
  (forall n code, In n (Notifications req) -> Platform n = PlatFormOther code ->
                  In n (filter_platforms c req)).
Proof.
  assert (E : filter_platforms c req
              = List.filter (fun n => negb (platform_disabled c n)) (Notifications req)).
  { rewrite filter_platforms_filter. apply List.filter_ext.
    intros n. apply platform_kept_disabled. }
  assert (M : forall n, In n (filter_platforms c req) <->
                        In n (Notifications req) /\ platform_disabled c n = false).
  { intros n. rewrite E, List.filter_In, negb_true_iff. reflexivity. }
  split; [exact E|]. split; [apply filter_platforms_length|]. split; [exact M|].
  intros n code Hin Hp. apply M. split; [exact Hin|].
  unfold platform_disabled. rewrite Hp. reflexivity.
Qed.

(** X2. In synchronous mode [handleNotification] returns only when the
    queue accepted a closure for every kept notification and every one of
    these closures has run to its end, deferred [wg.Done()] included. *)
Theorem X2_sync_return_means_all_finished (w : World) (c : ConfYaml)
    (req : RequestPush) (sched : list Event) (cnt : Z) (l : list LogPushEntry) :
  Sync (Core c) = true ->
  IsLocalQueue w (Engine (Queue c)) = true ->
  let st := handleNotification w c req sched in
  pc st = Returned cnt l ->
  Forall (fun t => exists ret, phase t = Finished ret) (tasks st) /\
  length (tasks st) = length (filter_platforms c req) /\
  (forall k, (k < length (filter_platforms c req))%nat -> submit w k = None).
Proof.
  intros Hs Hl st Hpc.
  pose proof (SyncInv_run w c req sched Hs Hl) as (_ & _ & H). fold st in H.
  pose proof (SyncAccount_run w c req sched Hs Hl) as (Hc & _ & Hn). fold st in Hc, Hn.
  pose proof (Common_run w c req sched) as HC. fold st in HC. unfold Common in HC.
  rewrite Hpc in H, HC. unfold position in H, Hn. rewrite Hpc in H, Hn.
  destruct H as (_ & Hwg & _ & _ & Hz). destruct HC as (_ & HN & _).
  rewrite HN, filter_platforms_downgrade in Hwg, Hn.
  pose proof (lives_nonneg (tasks st)).
  pose proof (rejected_nonneg w (length (filter_platforms c req))).
  assert (Hl0 : lives (tasks st) = 0) by lia.
  assert (Hr0 : rejected w (length (filter_platforms c req)) = 0) by lia.
  split; [|split].
  - apply lives_zero in Hl0. rewrite Forall_forall in *. intros t Ht.
    specialize (Hl0 t Ht). specialize (Hc t Ht). unfold live in Hl0.
    destruct (phase t) as [| | |ret|]; try discriminate; [eauto|congruence].
  - lia.
  - intros k Hk. apply (rejected_zero w _ k Hr0 Hk).
Qed.

(** X3. A call in synchronous mode never panics: [wg.Add] and [wg.Done] never
    see a negative counter, no closure crashes in its deferred [wg.Done()],
    and nothing is handed to [q.Queue].  Past the entry the counter is the
    number of closures that have not yet run [wg.Done()] plus the number of
    rejected submissions. *)
Theorem X3_sync_counter_accounting (w : World) (c : ConfYaml)
    (req : RequestPush) (sched : list Event) :
  Sync (Core c) = true ->
  IsLocalQueue w (Engine (Queue c)) = true ->
  let st := handleNotification w c req sched in
  pc st <> Panicked /\
  Forall (fun t => phase t <> Crashed) (tasks st) /\
  queued st = [] /\
  ((forall r, pc st <> Entry r) ->
   wg st = lives (tasks st) + rejected w (position st)).
Proof.
  intros Hs Hl st.
  pose proof (SyncInv_run w c req sched Hs Hl) as (_ & _ & H). fold st in H.
  pose proof (SyncAccount_run w c req sched Hs Hl) as (Hc & Hq & _). fold st in Hc, Hq.
  split; [|split; [exact Hc|split; [exact Hq|]]].
  - intros Hpc. rewrite Hpc in H. exact H.
  - intros Hne. destruct (pc st) as [r|i| |cnt l|] eqn:Epc.
    + destruct (Hne r eq_refl).
    + apply H.
    + apply H.
    + apply H.
    + destruct H.
Qed.

(** X4. The watcher of [pushHandler] has no effect on a call of
    [handleNotification]: a schedule and the same schedule without the
    watcher's moves lead to states that differ at most in the cancellation
    flag of the context, which nothing reads. *)
Theorem X4_watcher_changes_nothing (w : World) (c : ConfYaml) (req : RequestPush)
    (sched : list Event) :
  let a := handleNotification w c req sched in
  let b := handleNotification w c req (strip_disconnect sched) in
  pc a = pc b /\ cfg a = cfg b /\ newNotification a = newNotification b /\
  count a = count b /\ wg a = wg b /\ logs a = logs b /\ tasks a = tasks b /\
  queued a = queued b /\ spawned a = spawned b /\ statCalls a = statCalls b.
Proof.
  intros a b.
  destruct (run_strip_disconnect w sched (enter c req) (enter c req) false eq_refl)
    as (y & E).
  subst a b. unfold handleNotification. rewrite E. cbn. auto 15.
Qed.

(** X5. [status.StatStorage.AddTotalCount] is called once, with the count
    that is returned, when [handleNotification] returns, and not at all in
    a call that has not returned, be it running, blocked or stopped by a
    panic. *)
Theorem X5_stats_updated_once_on_return (w : World) (c : ConfYaml)
    (req : RequestPush) (sched : list Event) :
  let st := handleNotification w c req sched in
  (forall cnt l, pc st = Returned cnt l -> statCalls st = [cnt]) /\
  ((forall cnt l, pc st <> Returned cnt l) -> statCalls st = []).
Proof.
  intros st.
  assert (H : StatInv st).
  { subst st. unfold handleNotification. apply (run_invariant w StatInv).
    - intros st' e. apply StatInv_step.
    - reflexivity. }
  unfold StatInv in H. split.
  - intros cnt l Hpc. rewrite Hpc in H. exact H.
  - intros Hn. destruct (pc st) as [r|i| |cnt l|] eqn:Epc; auto.
    destruct (Hn cnt l eq_refl).
Qed.

(** X6. In asynchronous mode [handleNotification] creates no closure and
    starts no reclaimer, and when it returns its logs are empty and every
    kept notification has been handed to [q.Queue], in the order of the
    request: a failure entry made for a rejected submission is never part
    of a returned result. *)
Theorem X6_async_returns_no_logs (w : World) (c : ConfYaml)
    (req : RequestPush) (sched : list Event) :
  Sync (Core c) && IsLocalQueue w (Engine (Queue c)) = false ->
  let st := handleNotification w c req sched in
  tasks st = [] /\ spawned st = [] /\
  (forall cnt l, pc st = Returned cnt l ->
     l = [] /\ queued st = filter_platforms c req).
Proof.
  intros Hs st. rewrite <- downgrade_Sync in Hs.
  assert (H : AsyncInv w st /\ AsyncQuiet st).
  { subst st. unfold handleNotification.
    apply (run_invariant w (fun st => AsyncInv w st /\ AsyncQuiet st)).
    - intros st' e (I1 & I2). split.
      + apply AsyncInv_step; exact I1.
      + apply AsyncQuiet_step; assumption.
    - split.
      + split; [exact Hs|reflexivity].
      + unfold AsyncQuiet. cbn. auto. }
  destruct H as (_ & Ht & Hsp & H). split; [exact Ht|]. split; [exact Hsp|].
  intros cnt l Hpc. rewrite Hpc in H. destruct H as (Hl & Hq). split; [exact Hl|].
  pose proof (Common_run w c req sched) as HC. fold st in HC. unfold Common in HC.
  rewrite Hpc in HC. destruct HC as (_ & HN & _).
  rewrite Hq, HN. apply filter_platforms_downgrade.
Qed.

(** X7. In synchronous mode, when the queue accepts every closure, every
    send returns and the closures run one after the other, in whatever
    order, [handleNotification] returns the entries the closures append,
    in the order in which they ran: none is lost and none is doubled. *)
Theorem X7_sequential_completions_keep_every_entry (w : World) (c : ConfYaml)
    (req : RequestPush) (ks : list nat) :
  Sync (Core c) = true ->
  IsLocalQueue w (Engine (Queue c)) = true ->
  (forall k, submit w k = None) ->
  (forall k, send w k <> SendNeverReturns) ->
  let n := length (filter_platforms c req) in
  Permutation ks (seq 0 n) ->
  pc (handleNotification w c req (ordered_schedule n ks))
  = Returned (int_wrap (expected_count c req))
             (concat (map (fun k => appended (send w k)) ks)).
Proof.
  intros Hs Hl Hsub Hsend n Hperm.
  destruct (sync_after_loop w c req Hs Hl Hsub) as (Inv3 & P3 & G3 & Q3 & O3).
  fold n in Inv3, P3, G3, Q3, O3.
  set (st3 := handleNotification w c req (repeat Coord (n + 2))) in *.
  assert (Len : length (tasks st3) = n).
  { rewrite <- (length_map outcome), O3, length_map, length_seq. reflexivity. }
  assert (Hks : forall k, In k ks -> (k < n)%nat).
  { intros k Hin. apply (Permutation_in _ Hperm) in Hin.
    apply in_seq in Hin. lia. }
  assert (Hnd : List.NoDup ks).
  { apply (Permutation_NoDup (Permutation_sym Hperm)). apply List.seq_NoDup. }
  assert (Hlk : length ks = n).
  { rewrite (Permutation_length Hperm). apply length_seq. }
  assert (Hout : forall k t, In k ks -> tasks st3 !! k = Some t -> outcome t = send w k).
  { intros k t Hin Ht.
    assert (Eo : map outcome (tasks st3) !! k = Some (outcome t)).
    { rewrite list_lookup_fmap, Ht. reflexivity. }
    rewrite O3, list_lookup_fmap, lookup_seq_lt in Eo by (apply Hks; exact Hin).
    injection Eo as <-. reflexivity. }
  assert (Hq : forall k, In k ks ->
            exists t, tasks st3 !! k = Some t /\ phase t = Queued /\
                      outcome t <> SendNeverReturns).
  { intros k Hin.
    destruct (lookup_lt_is_Some_2 (tasks st3) k
                ltac:(rewrite Len; apply Hks; exact Hin)) as [t Ht].
    exists t. split; [exact Ht|].
    split; [exact (Forall_lookup_1 _ _ _ _ Q3 Ht)|].
    rewrite (Hout k t Hin Ht). apply Hsend. }
  destruct (finish_order_finishes w ks st3 Inv3 Hnd Hq) as (Inv4 & P4 & N4 & Lv4 & G4).
  set (st4 := run w (finish_order ks) st3) in *.
  assert (E5 : handleNotification w c req (ordered_schedule n ks) = coord_step w st4).
  { unfold handleNotification, ordered_schedule. rewrite !run_app. reflexivity. }
  assert (P5 : pc (coord_step w st4) = Returned (count st4) (logs st4)).
  { apply sync_wait_returns; auto.
    - rewrite P4. exact P3.
    - rewrite Lv4, (lives_queued _ Q3), Len, Hlk. lia.
    - apply rejected_none. exact Hsub. }
  rewrite E5, P5. f_equal.
  - pose proof (Common_run w c req (ordered_schedule n ks)) as HC.
    unfold Common in HC. rewrite E5, P5 in HC.
    destruct HC as (_ & Hn & Hc). rewrite Hc, Hn, counts_expected. reflexivity.
  - rewrite G4, G3. cbn [app]. f_equal. apply map_ext_in. intros k Hin.
    destruct (Hq k Hin) as (t & Ht & _). rewrite Ht, (Hout k t Hin Ht). reflexivity.
Qed.

(** X8. When every notification of the request is on a disabled platform
    (or the request has none), [handleNotification] returns count zero and
    no logs after three moves of its own, in either mode, having submitted
    nothing. *)
Theorem X8_nothing_to_dispatch (w : World) (c : ConfYaml) (req : RequestPush) :
  Forall (fun n => platform_disabled c n = true) (Notifications req) ->
  let st := handleNotification w c req [Coord; Coord; Coord] in
  pc st = Returned 0 [] /\ tasks st = [] /\ queued st = [] /\
  spawned st = [] /\ statCalls st = [0].
Proof.
  intros Hall st.
  assert (E : filter_platforms (downgrade w c) req = []).
  { rewrite filter_platforms_downgrade, filter_platforms_filter.
    induction (Notifications req) as [|n ns IH]; [reflexivity|].
    inversion Hall as [|? ? Hn Hns]; subst. simpl.
    rewrite platform_kept_disabled, Hn. simpl. apply IH. exact Hns. }
  assert (E1 : coord_step w (enter c req)
               = mkState (downgrade w c) [] (Looping 0) 0 0 [] [] [] [] [] false).
  { unfold coord_step, coord_entry. cbn. rewrite E. reflexivity. }
  subst st.
  change (handleNotification w c req [Coord; Coord; Coord])
    with (coord_step w (coord_step w (coord_step w (enter c req)))).
  rewrite E1. unfold coord_step. cbn.
  destruct (Sync (Core (downgrade w c))); cbn; auto.
Qed.

(** X9. The reclaimer sleeps two seconds after every request that was not
    answered with status 200, the last one included: six seconds in all
    when the three requests fail, none when the first succeeds or when the
    request cannot be built. *)
Theorem X9_reclaimer_sleeps_after_each_failure (net : Network)
    (token cleanerServiceURL : string) :
  let url := (cleanerServiceURL ++ "/" ++ token)%string in
  let trace := deleteUnregisteredToken net token cleanerServiceURL in
  total_sleep trace = 2 * Z.of_nat (failed_attempts net url) /\
  0 <= total_sleep trace <= 6 /\
  (failed_attempts net url <= attempts_made net url <= failed_attempts net url + 1)%nat.
Proof.
  intros url trace. subst trace.
  unfold deleteUnregisteredToken, failed_attempts, attempts_made, attempt_ok.
  fold url. destruct (NewRequest_fails net "DELETE" url).
  { cbn. lia. }
  cbn [retry_loop].
  destruct (client_Do net 0) as [e0|c0]; [|destruct (c0 =? StatusOK)];
    (destruct (client_Do net 1) as [e1|c1]; [|destruct (c1 =? StatusOK)]);
    (destruct (client_Do net 2) as [e2|c2]; [|destruct (c2 =? StatusOK)]);
    cbn; lia.
Qed.

(** X10. [strings_Contains s substr] holds exactly when [substr] occurs in
    [s]: the closure takes an error for an unregistered token when, and
    only when, "Unregistered" occurs somewhere in its text. *)
Theorem X10_Contains_is_substring (s substr : string) :
  strings_Contains s substr = true <->
  exists pre post, s = (pre ++ substr ++ post)%string.
Proof.
  split.
  - induction s as [|x s IH].
    + rewrite Contains_nil, orb_false_r. intros H. apply prefix_app in H.
      destruct H as (post & H). exists EmptyString, post. exact H.
    + rewrite Contains_cons. intros H. apply orb_true_iff in H. destruct H as [H|H].
      * apply prefix_app in H. destruct H as (post & H).
        exists EmptyString, post. exact H.
      * destruct (IH H) as (pre & post & E).
        exists (String x pre), post. simpl. now rewrite E.
  - intros (pre & post & E). subst s. induction pre as [|x pre IH].
    + assert (P : String.prefix substr (substr ++ post) = true).
      { apply prefix_app. now exists post. }
      change (EmptyString ++ substr ++ post)%string with (substr ++ post)%string.
      destruct (substr ++ post)%string.
      * rewrite Contains_nil, P. reflexivity.
      * rewrite Contains_cons, P. reflexivity.
    + change (String x pre ++ substr ++ post)%string
        with (String x (pre ++ substr ++ post)).
      rewrite Contains_cons, IH. apply orb_true_r.
Qed.

(** A request of three notifications against a limit of two. *)
Example over_limit_message :
  fst (pushHandler (example_world accept_all succeed_all)
         (mkConfYaml (mkSectionCore false 2) (mkSectionQueue "local")
                     (mkSectionPush true) (mkSectionPush true)
                     (mkSectionPush true) (mkSectionLog false "string"))
         (BindOK example_req) [])
  = Some (AbortWithStatusJSON 400 "Number of notifications(3) over limit(2)").
Proof. reflexivity. Qed.



(** X13. [handleNotification] writes to no field of the configuration but
    [Core.Sync], never sets that field to true, and leaves the whole
    object as it found it unless sync is set with a non-local engine. *)
Theorem X13_config_written_only_by_downgrade (w : World) (c : ConfYaml)
    (req : RequestPush) (sched : list Event) :
  let st := handleNotification w c req sched in
  MaxNotification (Core (cfg st)) = MaxNotification (Core c) /\
  Queue (cfg st) = Queue c /\
  Ios (cfg st) = Ios c /\
  Android (cfg st) = Android c /\
  Huawei (cfg st) = Huawei c /\
  Log (cfg st) = Log c /\
  (Sync (Core (cfg st)) = true -> Sync (Core c) = true) /\
  (Sync (Core c) = false \/ IsLocalQueue w (Engine (Queue c)) = true -> cfg st = c).
Proof.
  intros st.
  assert (E : cfg st = c \/ cfg st = downgrade w c).
  { destruct (cfg_reached w c req sched) as [(r & _ & H)|(_ & H)]; auto. }
  assert (D : downgrade w c = c \/
              (downgrade w c = set_Sync c false /\ Sync (Core c) = true /\
               IsLocalQueue w (Engine (Queue c)) = false)).
  { unfold downgrade. destruct (Sync (Core c)); [|auto].
    destruct (IsLocalQueue w (Engine (Queue c))); simpl; auto. }
  destruct E as [E|E]; rewrite E; [repeat split; auto|].
  destruct D as [D|(D & Hs & Hl)]; rewrite D; [repeat split; auto|].
  repeat split; try reflexivity.
  - discriminate.
  - intros [H|H]; congruence.
Qed.

(** X14. A reclaimer is started only for a token of a notification whose
    send returned an error with "Unregistered" in its text, always with the
    cleaner URL, and a closure starts its reclaimers once: the number of
    reclaimers started is the number of tokens of the closures past their
    send whose send returned such an error. *)
Theorem X14_reclaimers_only_for_unregistered (w : World) (c : ConfYaml)
    (req : RequestPush) (sched : list Event) :
  let st := handleNotification w c req sched in
  length (spawned st) = reclaimed_total (tasks st) /\
  (forall token url, In (token, url) (spawned st) ->
     url = cleanerApiUrl w /\
     exists j t, tasks st !! j = Some t /\ In token (Tokens (msg t)) /\
                 unregistered (outcome t) = true).
Proof.
  intros st. subst st. unfold handleNotification.
  apply (run_invariant w (SpawnInv w)).
  - intros st e. apply SpawnInv_step.
  - split; [reflexivity|]. intros token url [].
Qed.

(** X15. In asynchronous mode a submission that [q.Queue] rejects stops the
    call: [handleNotification] never returns under any schedule, and once
    the coordinator has gone through the accepted notifications before it,
    it has appended the failure entries of that notification and panicked
    in the [wg.Done()] of line 332, the counter being zero, without a call
    of [AddTotalCount]. *)
Theorem X15_async_rejection_panics (w : World) (c : ConfYaml) (req : RequestPush)
    (k : nat) (n : PushNotification) (err : string) :
  Sync (Core c) && IsLocalQueue w (Engine (Queue c)) = false ->
  filter_platforms c req !! k = Some n ->
  submit w k = Some err ->
  (forall sched cnt l, pc (handleNotification w c req sched) <> Returned cnt l) /\
  ((forall j, (j < k)%nat -> submit w j = None) ->
   let st := handleNotification w c req (repeat Coord (k + 2)) in
   pc st = Panicked /\
   logs st = markFailedNotification w (downgrade w c) n "max capacity reached" /\
   statCalls st = []).
Proof.
  intros Hs Hk Hsub. rewrite <- downgrade_Sync in Hs. split.
  - intros sched. apply (async_rejection_never_returns w c req sched k n err Hs Hk Hsub).
  - intros Hacc st.
    destruct (async_rejection_panics w c req k n err Hs Hk Hacc Hsub) as (P & L).
    fold st in P, L. split; [exact P|]. split; [exact L|].
    assert (H : StatInv st).
    { subst st. unfold handleNotification. apply (run_invariant w StatInv).
      - intros st' e. apply StatInv_step.
      - reflexivity. }
    unfold StatInv in H. rewrite P in H. exact H.
Qed.

(** X16. Every closure handed to the worker pool belongs to a kept
    notification that the second loop has gone through and that
    [q.QueueTask] accepted, and carries that notification and its send: no
    closure exists for a notification that was dropped or rejected. *)
Theorem X16_closures_belong_to_accepted_notifications (w : World) (c : ConfYaml)
    (req : RequestPush) (sched : list Event) (j : nat) (t : Task) :
  let st := handleNotification w c req sched in
  tasks st !! j = Some t ->
  exists k n,
    filter_platforms c req !! k = Some n /\
    In n (Notifications req) /\ platform_disabled c n = false /\
    submit w k = None /\ msg t = n /\ outcome t = send w k.
Proof.
  intros st Hj.
  assert (H : WgBound st /\ (forall r, pc st = Entry r -> tasks st = []) /\
              TaskOrigin w st).
  { subst st. unfold handleNotification.
    apply (run_invariant w (fun st => WgBound st /\
                                       (forall r, pc st = Entry r -> tasks st = []) /\
                                       TaskOrigin w st)).
    - intros st' e (I1 & I2 & I3). split; [apply WgBound_step; exact I1|].
      split; [apply entry_has_no_task; exact I2|].
      apply TaskOrigin_step; [apply I1|exact I2|exact I3].
    - split; [unfold WgBound, position; cbn; lia|].
      split; [reflexivity|]. intros j0 t0 H0. discriminate. }
  destruct H as (_ & He & H). destruct (H j t Hj) as (k & n & _ & Hk & Hsub & Hm & Ho).
  pose proof (Common_run w c req sched) as HC. fold st in HC. unfold Common in HC.
  assert (HN : newNotification st = filter_platforms c req).
  { destruct (pc st) as [r|i| |cnt l|] eqn:Epc.
    - rewrite (He r eq_refl) in Hj. discriminate.
    - destruct HC as (_ & Hn & _). rewrite Hn. apply filter_platforms_downgrade.
    - destruct HC as (_ & Hn & _). rewrite Hn. apply filter_platforms_downgrade.
    - destruct HC as (_ & Hn & _). rewrite Hn. apply filter_platforms_downgrade.
    - destruct HC as (_ & Hn). rewrite Hn. apply filter_platforms_downgrade. }
  rewrite HN in Hk. exists k, n.
  assert (Hin : In n (filter_platforms c req)).
  { apply list_elem_of_In. eapply list_elem_of_lookup_2. exact Hk. }
  rewrite filter_platforms_filter in Hin. apply List.filter_In in Hin.
  destruct Hin as (Hin & Hkept). rewrite platform_kept_disabled in Hkept.
  apply negb_true_iff in Hkept. repeat split; auto.
Qed.

End Properties.

(** C1, on the request of three notifications, every submission rejected:
    the coordinator waits with the counter at two and no closure at all. *)
Lemma C1_witness :
  let st := handleNotification (example_world reject_all succeed_all)
              (example_cfg true "local") example_req (repeat Coord 4) in
  1 <= wg st - lives (tasks st).
Proof.
  refine (proj1 (C1_rejected_submission_never_released
                   (example_world reject_all succeed_all)
                   (example_cfg true "local") example_req (repeat Coord 4)
                   0 (mkPushNotification "n1" ["a"; "b"] PlatFormIos "hello" "")
                   "max capacity reached" eq_refl eq_refl eq_refl eq_refl) _).
  vm_compute. reflexivity.
Defined.

(** C2, as the specification words it, fails: a rejected notification with
    one token and a topic gets the entries of [markFailedNotification], one
    in all, where one per token plus one for the topic would be two. *)
Lemma C2_counterexample :
  let w := example_world reject_all succeed_all in
  let n := mkPushNotification "n1" ["a"] PlatFormIos "hello" "news" in
  let st := handleNotification w (example_cfg false "local") topic_req [Coord; Coord] in
  logs st = markFailedNotification w (example_cfg false "local") n "max capacity reached" /\
  volume n = 2 /\ len (logs st) = 1 /\ len (logs st) <> volume n.
Proof. vm_compute. repeat split; congruence. Qed.

(** C2, as the code has it, on that notification. *)
Lemma C2_witness :
  let w := example_world reject_all succeed_all in
  let st := handleNotification w (example_cfg false "local") topic_req [Coord] in
  logs (coord_step w st)
  = logs st ++ markFailedNotification w (cfg st)
                 (mkPushNotification "n1" ["a"] PlatFormIos "hello" "news")
                 "max capacity reached".
Proof.
  exact (proj1 (C2_rejection_logs_one_entry_per_token
                  (example_world reject_all succeed_all)
                  (handleNotification (example_world reject_all succeed_all)
                     (example_cfg false "local") topic_req [Coord])
                  0 (mkPushNotification "n1" ["a"] PlatFormIos "hello" "news")
                  "max capacity reached" eq_refl eq_refl eq_refl eq_refl)).
Defined.

(** C3, on the request of three notifications whose sends never return,
    the client disconnecting while the coordinator waits. *)
Lemma C3_witness :
  let st := handleNotification (example_world accept_all never_return)
              (example_cfg true "local") example_req
              (repeat Coord 4 ++ [Work 0; Disconnect; Coord; Work 1; Coord]) in
  ctxCancelled st = true /\ (forall cnt l, pc st <> Returned cnt l).
Proof.
  refine (C3_disconnect_does_not_release_wait
            (example_world accept_all never_return)
            (example_cfg true "local") example_req
            (repeat Coord 4 ++ [Work 0; Disconnect; Coord; Work 1; Coord])
            0 (mkPushNotification "n1" ["a"; "b"] PlatFormIos "hello" "")
            eq_refl eq_refl eq_refl eq_refl eq_refl _).
  simpl. tauto.
Defined.

(** C4, as the specification words it, fails: the send for the first
    notification produced an
    entry and an error without "Unregistered"; both
    closures finished, the call returned, and that entry is not in the
    logs. *)
Lemma C4_counterexample :
  let w := example_world accept_all (fail_first "connection refused") in
  let e := mkInputLog "n" FailedPush "a" "hello" PlatFormIos
                      (Some "connection refused") false "string" in
  let st := handleNotification w (example_cfg true "local") example_req
              (repeat Coord 5 ++ [Work 0; Work 0; Work 1; Work 1; Work 1; Coord]) in
  send w 0 = SendReturns [e] (Some "connection refused") /\
  strings_Contains "connection refused" "Unregistered" = false /\
  pc st = Returned 3 [success_entry "c"] /\
  ~ In e (logs st).
Proof.
  vm_compute. repeat split; try reflexivity.
  intros [H|[]]. discriminate H.
Qed.

(** C4, as the code has it, on that call, once the coordinator waits. *)
Lemma C4_witness :
  let w := example_world accept_all (fail_first "connection refused") in
  let st := handleNotification w (example_cfg true "local") example_req (repeat Coord 5) in
  logs (run w [Work 0; Work 0] st) = logs st /\
  wg (run w [Work 0; Work 0] st) = wg st - 1.
Proof.
  pose proof (C4_generic_error_releases_without_logs
                (example_world accept_all (fail_first "connection refused"))
                (example_cfg true "local") example_req (repeat Coord 5) 0
                (mkTask (mkPushNotification "n1" ["a"; "b"] PlatFormIos "hello" "")
                        (fail_first "connection refused" 0) Queued)
                [mkInputLog "n" FailedPush "a" "hello" PlatFormIos
                            (Some "connection refused") false "string"]
                "connection refused"
                eq_refl eq_refl eq_refl eq_refl eq_refl eq_refl) as (_ & H1 & H2 & _).
  split; [exact H1|exact H2].
Defined.


(** C7, with sync configured and the engine "nsq". *)
Lemma C7_witness :
  Sync (Core (downgrade (example_world accept_all succeed_all) (example_cfg true "nsq")))
  = false /\
  pc (handleNotification (example_world accept_all succeed_all)
        (example_cfg true "nsq") example_req (repeat Coord 4))
  = Returned 3 [].
Proof.
  pose proof (C7_sync_needs_local_engine (example_world accept_all succeed_all)
                (example_cfg true "nsq") example_req) as (H1 & _ & H3).
  split; [exact H1|].
  destruct (H3 eq_refl eq_refl) as (_ & H4).
  destruct (H4 (fun k _ => eq_refl)) as (H5 & _). exact H5.
Defined.

(** C8, on a call whose first send fails with "Unregistered: token-x". *)
Lemma C8_witness :
  let w := example_world accept_all (fail_first "Unregistered: token-x") in
  let st := handleNotification w (example_cfg true "local") example_req (repeat Coord 5) in
  let st' := run w [Work 0; Work 0; Work 0] st in
  logs st' = logs st ++ [mkInputLog "n" FailedPush "a" "hello" PlatFormIos
                                    (Some "Unregistered: token-x") false "string"] /\
  wg st' = wg st - 1 /\
  spawned st' = spawned st ++ [("a", "https://cleaner.tolki.app");
                               ("b", "https://cleaner.tolki.app")].
Proof.
  pose proof (C8_unregistered_is_soft
                (example_world accept_all (fail_first "Unregistered: token-x"))
                (example_cfg true "local") example_req (repeat Coord 5) 0
                (mkTask (mkPushNotification "n1" ["a"; "b"] PlatFormIos "hello" "")
                        (fail_first "Unregistered: token-x" 0) Queued)
                [mkInputLog "n" FailedPush "a" "hello" PlatFormIos
                            (Some "Unregistered: token-x") false "string"]
                "Unregistered: token-x"
                eq_refl eq_refl eq_refl eq_refl eq_refl eq_refl) as (_ & H1 & H2 & H3 & _).
  split; [exact H1|]. split; [exact H2|exact H3].
Defined.


(** C10, with sync configured and the engine "nsq". *)
Lemma C10_witness :
  cfg (handleNotification (example_world accept_all succeed_all)
         (example_cfg true "nsq") example_req [Coord; Coord])
  = example_cfg false "nsq".
Proof.
  refine (proj1 (C10_downgrade_written_to_shared_config
                   (example_world accept_all succeed_all)
                   (example_cfg true "nsq") example_req [Coord; Coord]
                   eq_refl eq_refl _)).
  intros r. vm_compute. discriminate.
Defined.

(** X1, on the request of three notifications: the first one is kept. *)
Lemma X1_witness :
  In (mkPushNotification "n1" ["a"; "b"] PlatFormIos "hello" "")
     (filter_platforms (example_cfg false "local") example_req).
Proof.
  apply (proj1 (proj2 (proj2 (X1_filter_keeps_enabled_in_order
                                (example_cfg false "local") example_req)))).
  split; [left; reflexivity|reflexivity].
Defined.

(** X2, on the end-to-end scenario. *)
Lemma X2_witness :
  length (tasks (handleNotification (example_world accept_all succeed_all)
                   (example_cfg true "local") example_req (sequential_schedule 2)))
  = 2%nat.
Proof.
  refine (proj1 (proj2 (X2_sync_return_means_all_finished
                          (example_world accept_all succeed_all)
                          (example_cfg true "local") example_req
                          (sequential_schedule 2) 3
                          [success_entry "a"; success_entry "b"; success_entry "c"]
                          eq_refl eq_refl _))).
  vm_compute. reflexivity.
Defined.

(** X3, on a call in which every submission is rejected. *)
Lemma X3_witness :
  pc (handleNotification (example_world reject_all succeed_all)
        (example_cfg true "local") example_req (repeat Coord 6))
  <> Panicked.
Proof.
  exact (proj1 (X3_sync_counter_accounting
                  (example_world reject_all succeed_all)
                  (example_cfg true "local") example_req (repeat Coord 6)
                  eq_refl eq_refl)).
Defined.

(** X5, on an asynchronous call that returns. *)
Lemma X5_witness :
  statCalls (handleNotification (example_world accept_all succeed_all)
               (example_cfg false "local") example_req (repeat Coord 4))
  = [3].
Proof.
  refine (proj1 (X5_stats_updated_once_on_return
                   (example_world accept_all succeed_all)
                   (example_cfg false "local") example_req (repeat Coord 4)) 3 [] _).
  vm_compute. reflexivity.
Defined.

(** X6, on a call with sync configured and the engine "nsq". *)
Lemma X6_witness :
  tasks (handleNotification (example_world accept_all succeed_all)
           (example_cfg true "nsq") example_req (repeat Coord 4 ++ [Work 0]))
  = [].
Proof.
  exact (proj1 (X6_async_returns_no_logs
                  (example_world accept_all succeed_all)
                  (example_cfg true "nsq") example_req (repeat Coord 4 ++ [Work 0])
                  eq_refl)).
Defined.

(** X7, on the end-to-end scenario with the second closure running first. *)
Lemma X7_witness :
  pc (handleNotification (example_world accept_all succeed_all)
        (example_cfg true "local") example_req (ordered_schedule 2 [1; 0]%nat))
  = Returned 3 [success_entry "c"; success_entry "a"; success_entry "b"].
Proof.
  refine (X7_sequential_completions_keep_every_entry
            (example_world accept_all succeed_all)
            (example_cfg true "local") example_req [1; 0]%nat
            eq_refl eq_refl (fun k => eq_refl) _ _).
  - intros k. unfold example_world, succeed_all. simpl.
    destruct (Nat.eqb k 0); discriminate.
  - apply perm_swap.
Defined.

(** X8, on a request whose notifications are all for a disabled platform. *)
Lemma X8_witness :
  pc (handleNotification (example_world accept_all succeed_all)
        (example_cfg true "local") disabled_req [Coord; Coord; Coord])
  = Returned 0 [].
Proof.
  refine (proj1 (X8_nothing_to_dispatch
                   (example_world accept_all succeed_all)
                   (example_cfg true "local") disabled_req _)).
  repeat constructor.
Defined.

(** X10, on an error text of the push service. *)
Lemma X10_witness :
  strings_Contains "rpc error: Unregistered: token-x" "Unregistered" = true.
Proof.
  apply (proj2 (X10_Contains_is_substring
                  "rpc error: Unregistered: token-x" "Unregistered")).
  exists "rpc error: ", ": token-x". reflexivity.
Defined.


(** X13, on a call with sync set and the local engine. *)
Lemma X13_witness :
  cfg (handleNotification (example_world accept_all succeed_all)
         (example_cfg true "local") example_req (repeat Coord 3))
  = example_cfg true "local".
Proof.
  apply (X13_config_written_only_by_downgrade
           (example_world accept_all succeed_all)
           (example_cfg true "local") example_req (repeat Coord 3)).
  right. reflexivity.
Defined.

(** X14, on a call whose first send fails with "Unregistered: token-x". *)
Lemma X14_witness :
  "https://cleaner.tolki.app"
  = cleanerApiUrl (example_world accept_all (fail_first "Unregistered: token-x")).
Proof.
  refine (proj1 (proj2 (X14_reclaimers_only_for_unregistered
                          (example_world accept_all (fail_first "Unregistered: token-x"))
                          (example_cfg true "local") example_req
                          (repeat Coord 5 ++ [Work 0]))
                       "b" "https://cleaner.tolki.app" _)).
  vm_compute. right. left. reflexivity.
Defined.

(** X15, on an asynchronous call whose first submission is rejected. *)
Lemma X15_witness :
  pc (handleNotification (example_world reject_all succeed_all)
        (example_cfg false "local") example_req (repeat Coord 2))
  = Panicked.
Proof.
  refine (proj1 (proj2 (X15_async_rejection_panics
                          (example_world reject_all succeed_all)
                          (example_cfg false "local") example_req 0
                          (mkPushNotification "n1" ["a"; "b"] PlatFormIos "hello" "")
                          "max capacity reached" eq_refl eq_refl eq_refl) _)).
  intros j Hj. lia.
Defined.

(** X16, on the first closure of the end-to-end scenario. *)
Lemma X16_witness :
  exists k n,
    filter_platforms (example_cfg true "local") example_req !! k = Some n /\
    In n (Notifications example_req) /\
    platform_disabled (example_cfg true "local") n = false /\
    submit (example_world accept_all succeed_all) k = None /\
    mkPushNotification "n1" ["a"; "b"] PlatFormIos "hello" "" = n /\
    succeed_all 0 = send (example_world accept_all succeed_all) k.
Proof.
  exact (X16_closures_belong_to_accepted_notifications
           (example_world accept_all succeed_all)
           (example_cfg true "local") example_req (repeat Coord 5) 0
           (mkTask (mkPushNotification "n1" ["a"; "b"] PlatFormIos "hello" "")
                   (succeed_all 0) Queued)
           eq_refl).
Defined.
